(** * PROJECT S: the mission manager (js/script.js) and the parallax
      controller (js/parallax.js)

    A shallow embedding of the two scripts.

    - [JS] holds the part of the JavaScript host both scripts rely on:
      numbers, string trimming, [Number(s)], [parseInt(s)], [isNaN],
      [Math.min] and strict equality.
    - [Script] embeds [Mission] and [MissionManager] of js/script.js.
    - [Parallax] embeds [ParallaxController] of js/parallax.js.

    Numbers.  A JavaScript number is an IEEE-754 double.  Here it is one of
    [NaN], [+Infinity], [-Infinity] or an exact rational: the special values
    and the rules that produce them (0/0, x/0, Infinity - Infinity, ...) are
    kept, the rounding of finite results and the sign of zero are not.

    Strings.  A JavaScript string is a Rocq [string] holding the UTF-8
    encoding of the text. *)

From Stdlib Require Import Ascii String QArith Qminmax Qcanon Qcabs Lqa.
From stdpp Require Import gmap strings list numbers pretty.

Local Open Scope Z_scope.

(* ================================================================== *)
(** * The JavaScript host *)
(* ================================================================== *)

Module JS.

(** ** Numbers *)

Inductive num : Type :=
| NaN
| PInf
| NInf
| Fin (q : Qc).

Definition ofZ (z : Z) : num := Fin (Qc_of_Z z).
Definition ofQ (q : Q) : num := Fin (Q2Qc q).

Definition neg (a : num) : num :=
  match a with
  | NaN => NaN
  | PInf => NInf
  | NInf => PInf
  | Fin q => Fin (- q)%Qc
  end.

(** The sign of a finite operand; zero counts as [+0]. *)
Definition negative (q : Qc) : bool := bool_decide (q < 0)%Qc.
Definition is_zero (q : Qc) : bool := bool_decide (q = 0%Qc).

Definition add (a b : num) : num :=
  match a, b with
  | NaN, _ | _, NaN => NaN
  | PInf, NInf | NInf, PInf => NaN
  | PInf, _ | _, PInf => PInf
  | NInf, _ | _, NInf => NInf
  | Fin p, Fin q => Fin (p + q)%Qc
  end.

Definition sub (a b : num) : num := add a (neg b).

Definition signed_inf (minus : bool) : num := if minus then NInf else PInf.

Definition mul (a b : num) : num :=
  match a, b with
  | NaN, _ | _, NaN => NaN
  | PInf, PInf | NInf, NInf => PInf
  | PInf, NInf | NInf, PInf => NInf
  | PInf, Fin q | Fin q, PInf =>
      if is_zero q then NaN else signed_inf (negative q)
  | NInf, Fin q | Fin q, NInf =>
      if is_zero q then NaN else signed_inf (negb (negative q))
  | Fin p, Fin q => Fin (p * q)%Qc
  end.

Definition div (a b : num) : num :=
  match a, b with
  | NaN, _ | _, NaN => NaN
  | (PInf | NInf), (PInf | NInf) => NaN
  | PInf, Fin q => signed_inf (negative q)
  | NInf, Fin q => signed_inf (negb (negative q))
  | Fin _, (PInf | NInf) => Fin 0%Qc
  | Fin p, Fin q =>
      if is_zero q then
        (if is_zero p then NaN else signed_inf (negative p))
      else Fin (p / q)%Qc
  end.

(** [a < b]; false as soon as one side is [NaN]. *)
Definition lt (a b : num) : bool :=
  match a, b with
  | NaN, _ | _, NaN => false
  | _, NInf => false
  | NInf, _ => true
  | PInf, _ => false
  | Fin _, PInf => true
  | Fin p, Fin q => bool_decide (p < q)%Qc
  end.

Definition gt (a b : num) : bool := lt b a.

(** [a === b] on numbers: [NaN] differs from everything, itself included. *)
Definition num_eq (a b : num) : bool :=
  match a, b with
  | PInf, PInf | NInf, NInf => true
  | Fin p, Fin q => bool_decide (p = q)
  | _, _ => false
  end.

(** [Math.min(a, b)]. *)
Definition Math_min (a b : num) : num :=
  match a, b with
  | NaN, _ | _, NaN => NaN
  | _, _ => if lt b a then b else a
  end.

Definition is_nan (a : num) : bool :=
  match a with NaN => true | _ => false end.

(** An integer value, what the data model calls an integer year. *)
Definition is_integer (a : num) : Prop := exists z : Z, a = ofZ z.

(** ** Strings *)

Definition code (c : ascii) : Z := Z.of_N (N_of_ascii c).

(** White space and line terminators ([WhiteSpace] and [LineTerminator] of
    ECMA-262), by the length of their UTF-8 encoding:
    TAB, LF, VT, FF, CR, SP; U+00A0; U+1680, U+2000..U+200A, U+2028, U+2029,
    U+202F, U+205F, U+3000, U+FEFF. *)
Definition ws1 (a : Z) : bool :=
  ((9 <=? a) && (a <=? 13)) || (a =? 32).

Definition ws2 (a b : Z) : bool := (a =? 194) && (b =? 160).

Definition ws3 (a b c : Z) : bool :=
  ((a =? 225) && (b =? 154) && (c =? 128))
  || ((a =? 226) && (b =? 128)
      && (((128 <=? c) && (c <=? 138)) || (c =? 168) || (c =? 169) || (c =? 175)))
  || ((a =? 226) && (b =? 129) && (c =? 159))
  || ((a =? 227) && (b =? 128) && (c =? 128))
  || ((a =? 239) && (b =? 187) && (c =? 191)).

(** Drops the white space at the head of a list of bytes.  [fwd] tells in
    which order the bytes of one character are met: the string read from its
    end shows them reversed. *)
Fixpoint strip (fwd : bool) (l : list ascii) : list ascii :=
  match l with
  | [] => []
  | c1 :: r1 =>
      if ws1 (code c1) then strip fwd r1 else
      match r1 with
      | [] => l
      | c2 :: r2 =>
          if (if fwd then ws2 (code c1) (code c2) else ws2 (code c2) (code c1))
          then strip fwd r2 else
          match r2 with
          | [] => l
          | c3 :: r3 =>
              if (if fwd then ws3 (code c1) (code c2) (code c3)
                  else ws3 (code c3) (code c2) (code c1))
              then strip fwd r3 else l
          end
      end
  end.

(** [s.trimStart()] and [s.trim()]. *)
Definition trimStart (s : string) : string :=
  string_of_list_ascii (strip true (list_ascii_of_string s)).

Definition trim (s : string) : string :=
  string_of_list_ascii
    (rev (strip false (rev (strip true (list_ascii_of_string s))))).


(** [!s] on a string: only the empty string is falsy. *)
Definition falsy (s : string) : bool :=
  match s with EmptyString => true | _ => false end.

(** ** Numeric literals *)

Definition digit_val (radix : Z) (c : ascii) : option Z :=
  let a := code c in
  let d :=
    if (48 <=? a) && (a <=? 57) then Some (a - 48)
    else if (97 <=? a) && (a <=? 122) then Some (a - 87)
    else if (65 <=? a) && (a <=? 90) then Some (a - 55)
    else None in
  match d with
  | Some v => if v <? radix then Some v else None
  | None => None
  end.

(** Reads the longest run of radix digits: its value, its length, the rest. *)
Fixpoint read_digits (radix : Z) (s : string) (acc : Z) (count : nat)
  : Z * nat * string :=
  match s with
  | String c r =>
      match digit_val radix c with
      | Some d => read_digits radix r (acc * radix + d) (S count)
      | None => (acc, count, s)
      end
  | EmptyString => (acc, count, s)
  end.

(** [m * 10^e] *)
Definition scale10 (m e : Z) : Qc :=
  if 0 <=? e then Qc_of_Z (m * 10 ^ e)
  else Q2Qc (m # Z.to_pos (10 ^ (- e))).

Definition read_sign (s : string) : bool * string :=
  match s with
  | String "+" r => (false, r)
  | String "-" r => (true, r)
  | _ => (false, s)
  end.

(** [ExponentPart], which must reach the end of the literal. *)
Definition read_exponent (s : string) : option Z :=
  match s with
  | EmptyString => Some 0
  | String c r =>
      if (code c =? 101) || (code c =? 69) then
        let '(minus, r') := read_sign r in
        let '(v, k, rest) := read_digits 10 r' 0 0 in
        match k, rest with
        | S _, EmptyString => Some (if minus then - v else v)
        | _, _ => None
        end
      else None
  end.

(** [StrUnsignedDecimalLiteral] other than [Infinity]:
    digits [. digits?] exponent?, or [. digits] exponent?. *)
Definition unsigned_decimal (s : string) : option Qc :=
  let '(i, k1, r1) := read_digits 10 s 0 0 in
  let '(f, k2, r2) :=
    match r1 with
    | String "." r => read_digits 10 r 0 0
    | _ => (0, 0%nat, r1)
    end in
  match (k1 + k2)%nat with
  | O => None
  | S _ =>
      match read_exponent r2 with
      | Some e => Some (scale10 (i * 10 ^ Z.of_nat k2 + f) (e - Z.of_nat k2))
      | None => None
      end
  end.

(** [0x], [0o] and [0b] literals. *)
Definition non_decimal (s : string) : option (option Qc) :=
  match s with
  | String "0" (String p r) =>
      let radix :=
        if (code p =? 120) || (code p =? 88) then Some 16
        else if (code p =? 111) || (code p =? 79) then Some 8
        else if (code p =? 98) || (code p =? 66) then Some 2
        else None in
      match radix with
      | Some rx =>
          let '(v, k, rest) := read_digits rx r 0 0 in
          Some (match k, rest with
                | S _, EmptyString => Some (Qc_of_Z v)
                | _, _ => None
                end)
      | None => None
      end
  | _ => None
  end.

(** [Number(s)] on a string ([StringToNumber]). *)
Definition Number (s : string) : num :=
  let t := trim s in
  if falsy t then ofZ 0 else
  match non_decimal t with
  | Some (Some q) => Fin q
  | Some None => NaN
  | None =>
      let '(minus, r) := read_sign t in
      if String.eqb r "Infinity" then signed_inf minus
      else match unsigned_decimal r with
           | Some q => Fin (if minus then - q else q)%Qc
           | None => NaN
           end
  end.

(** [isNaN(s)] on a string. *)
Definition isNaN (s : string) : bool := is_nan (Number s).

(** [parseInt(s)] on a string, no radix given. *)
Definition parseInt (s : string) : num :=
  let '(minus, r) := read_sign (trimStart s) in
  let '(radix, r') :=
    match r with
    | String "0" (String p r'') =>
        if (code p =? 120) || (code p =? 88) then (16, r'') else (10, r)
    | _ => (10, r)
    end in
  let '(v, k, _) := read_digits radix r' 0 0 in
  match k with
  | O => NaN
  | S _ => ofZ (if minus then - v else v)
  end.

End JS.

(* ================================================================== *)
(** * js/script.js: missions *)
(* ================================================================== *)

Module Script.
Import JS.

(** ** Constants *)

Definition MISSIONS_STORAGE_KEY : string := "space_missions".
Definition MIN_YEAR : num := ofZ 1957.
Definition MAX_YEAR : num := ofZ 2100.

(** ** Values held by the fields of a record *)

Inductive value : Type :=
| VNull
| VNum (n : num)
| VStr (s : string).

(** [a === b] *)
Definition strict_eq (a b : value) : bool :=
  match a, b with
  | VNull, VNull => true
  | VNum m, VNum n => num_eq m n
  | VStr s, VStr t => String.eqb s t
  | _, _ => false
  end.

(** [a !== b] *)
Definition strict_ne (a b : value) : bool := negb (strict_eq a b).

(** What one [new Mission] reads from the host: [Date.now()],
    [Math.random()] and [new Date().toISOString()]. *)
Record Moment : Type := {
  Date_now : Z;
  Math_random : Qc;
  toISOString : string;
}.

(** ** class Mission *)

Record Mission : Type := {
  id : value;
  name : value;
  destination : value;
  year : value;
  status : value;
  createdAt : value;
}.

(** [new Mission(name, destination, year, status)].  [year] is the string
    [parseInt] works on: a number argument is converted to its decimal
    numeral first. *)
Definition Mission_new (t : Moment) (name destination year status : string)
  : Mission :=
  {| id := VNum (add (ofZ (Date_now t)) (Fin (Math_random t)));
     name := VStr name;
     destination := VStr destination;
     year := VNum (parseInt year);
     status := VStr status;
     createdAt := VStr (toISOString t) |}.

(** ** JSON and the storage strings

    A string kept in [localStorage] is seen through the two things the
    script does with it: its truthiness and [JSON.parse].  It is the empty
    string, a non-empty string that is not a JSON text, or the JSON text of
    an array of records with the six fields.  JSON texts of another shape are
    outside the model.  A JSON number is finite and JSON has [null]. *)

Inductive jscalar : Type :=
| JNull
| JNumber (q : Qc)
| JString (s : string).

Record jrecord : Type := {
  j_id : jscalar;
  j_name : jscalar;
  j_destination : jscalar;
  j_year : jscalar;
  j_status : jscalar;
  j_createdAt : jscalar;
}.

Inductive text : Type :=
| Empty
| Malformed
| JSONText (rs : list jrecord).

Definition truthy (t : text) : bool :=
  match t with Empty => false | _ => true end.

(** How [JSON.stringify] writes a field: a number that is not finite is
    written [null]. *)
Definition serialize (v : value) : jscalar :=
  match v with
  | VNull => JNull
  | VNum (Fin q) => JNumber q
  | VNum _ => JNull
  | VStr s => JString s
  end.

Definition revive (j : jscalar) : value :=
  match j with
  | JNull => VNull
  | JNumber q => VNum (Fin q)
  | JString s => VStr s
  end.

Definition serialize_record (m : Mission) : jrecord :=
  {| j_id := serialize (id m);
     j_name := serialize (name m);
     j_destination := serialize (destination m);
     j_year := serialize (year m);
     j_status := serialize (status m);
     j_createdAt := serialize (createdAt m) |}.

Definition revive_record (r : jrecord) : Mission :=
  {| id := revive (j_id r);
     name := revive (j_name r);
     destination := revive (j_destination r);
     year := revive (j_year r);
     status := revive (j_status r);
     createdAt := revive (j_createdAt r) |}.

Definition JSON_stringify (ms : list Mission) : text :=
  JSONText (map serialize_record ms).

Inductive exn : Type := SyntaxError | TypeError.

(** [JSON.parse]: the array, or a [SyntaxError]. *)
Definition JSON_parse (t : text) : exn + list Mission :=
  match t with
  | JSONText rs => inr (map revive_record rs)
  | Empty | Malformed => inl SyntaxError
  end.

(** ** The page and the manager *)

Record State : Type := {
  (** [this.missions] *)
  missions : list Mission;
  (** [this.editingMissionId] *)
  editingMissionId : value;
  (** [this.listContainer]: the records its cards show, [None] when the
      page has no such element *)
  listContainer : option (list Mission);
  (** [localStorage] *)
  localStorage : gmap string text;
  (** [textContent] of the elements of the document that have an id *)
  textContent : gmap string string;
  (** [style.display] of the edit modal, [None] before it is created *)
  modal : option string;
}.

Definition set_missions (ms : list Mission) (s : State) : State :=
  {| missions := ms; editingMissionId := editingMissionId s;
     listContainer := listContainer s; localStorage := localStorage s;
     textContent := textContent s; modal := modal s |}.

Definition set_editingMissionId (v : value) (s : State) : State :=
  {| missions := missions s; editingMissionId := v;
     listContainer := listContainer s; localStorage := localStorage s;
     textContent := textContent s; modal := modal s |}.

Definition set_listContainer (c : option (list Mission)) (s : State) : State :=
  {| missions := missions s; editingMissionId := editingMissionId s;
     listContainer := c; localStorage := localStorage s;
     textContent := textContent s; modal := modal s |}.

Definition set_localStorage (st : gmap string text) (s : State) : State :=
  {| missions := missions s; editingMissionId := editingMissionId s;
     listContainer := listContainer s; localStorage := st;
     textContent := textContent s; modal := modal s |}.

Definition set_textContent (tc : gmap string string) (s : State) : State :=
  {| missions := missions s; editingMissionId := editingMissionId s;
     listContainer := listContainer s; localStorage := localStorage s;
     textContent := tc; modal := modal s |}.

Definition set_modal (d : option string) (s : State) : State :=
  {| missions := missions s; editingMissionId := editingMissionId s;
     listContainer := listContainer s; localStorage := localStorage s;
     textContent := textContent s; modal := d |}.

(** ** Statements: a state and exception monad *)

Inductive Result (A : Type) : Type :=
| Ok (a : A) (s : State)
| Throw (e : exn) (s : State).
Arguments Ok {A} a s.
Arguments Throw {A} e s.

Definition M (A : Type) : Type := State -> Result A.

#[global] Instance M_ret : MRet M := fun A a s => Ok a s.
#[global] Instance M_bind : MBind M := fun A B f m s =>
  match m s with
  | Ok a s' => f a s'
  | Throw e s' => Throw e s'
  end.

Definition get : M State := fun s => Ok s s.
Definition modify (f : State -> State) : M unit := fun s => Ok tt (f s).
Definition throw {A} (e : exn) : M A := fun s => Throw e s.

(** [document.getElementById(elementId).textContent = t], a [TypeError] when
    there is no such element. *)
Definition setTextContent (elementId t : string) : M unit :=
  s ← get;
  match textContent s !! elementId with
  | Some _ => modify (set_textContent (<[elementId := t]> (textContent s)))
  | None => throw TypeError
  end.

(** ** class MissionManager *)

Definition getDefaultMissions (t1 t2 t3 : Moment) : list Mission :=
  [ Mission_new t1 "Voyager 1" "Espacio Interestelar" "1977" "active";
    Mission_new t2 "Apollo 11" "Luna" "1969" "completed";
    Mission_new t3 "Mars 2020" "Marte" "2020" "active" ].

Definition loadMissions (t1 t2 t3 : Moment) : M (list Mission) :=
  s ← get;
  match localStorage s !! MISSIONS_STORAGE_KEY with
  | Some stored =>
      if truthy stored then
        match JSON_parse stored with
        | inr ms => mret ms
        | inl e => throw e
        end
      else mret (getDefaultMissions t1 t2 t3)
  | None => mret (getDefaultMissions t1 t2 t3)
  end.

Definition saveMissions : M unit :=
  s ← get;
  modify (set_localStorage
    (<[MISSIONS_STORAGE_KEY := JSON_stringify (missions s)]> (localStorage s))).

Definition renderMissions : M unit :=
  s ← get;
  match listContainer s with
  | None => mret tt
  | Some _ => modify (set_listContainer (Some (missions s)))
  end.

Definition edit_error_ids : list string :=
  ["edit-name-error"; "edit-destination-error"; "edit-year-error";
   "edit-status-error"].

(** The modal is appended to the document with its four empty error
    elements, unless it is there already. *)
Definition createEditModal : M unit :=
  s ← get;
  match modal s with
  | Some _ => mret tt
  | None =>
      modify (set_modal (Some ""));;
      modify (fun s => set_textContent
        (foldr (fun i tc => <[i := ""]> tc) (textContent s) edit_error_ids) s)
  end.

Definition closeEditModal : M unit :=
  s ← get;
  match modal s with
  | None => throw TypeError
  | Some _ =>
      modify (set_modal (Some "none"));;
      modify (set_editingMissionId VNull)
  end.

Definition find_mission (i : value) (ms : list Mission)
  : option (nat * Mission) :=
  list_find (fun m => strict_eq (id m) i) ms.

Definition openEditModal (i : value) : M unit :=
  s ← get;
  match find_mission i (missions s) with
  | None => mret tt
  | Some _ =>
      modify (set_editingMissionId i);;
      setTextContent "edit-name-error" "";;
      setTextContent "edit-destination-error" "";;
      setTextContent "edit-year-error" "";;
      setTextContent "edit-status-error" "";;
      s ← get;
      match modal s with
      | None => throw TypeError
      | Some _ => modify (set_modal (Some "block"))
      end
  end.

(** The test of [validateField], [!value || value.trim() === '']. *)
Definition blank (value : string) : bool :=
  falsy value || String.eqb (trim value) "".

Definition validateField (value errorElementId errorMessage : string)
  : M bool :=
  if blank value then
    setTextContent errorElementId errorMessage;; mret false
  else
    setTextContent errorElementId "";; mret true.

(** The two tests of [validateYear], [!year || isNaN(year)] and
    [year < MIN_YEAR || year > MAX_YEAR]. *)
Definition year_missing (year : string) : bool :=
  falsy year || isNaN year.

Definition year_out_of_range (year : string) : bool :=
  lt (Number year) MIN_YEAR || gt (Number year) MAX_YEAR.

Definition validateYear (year errorElementId : string) : M bool :=
  if year_missing year then
    setTextContent errorElementId "El año es requerido";; mret false
  else if year_out_of_range year then
    setTextContent errorElementId "El año debe estar entre 1957 y 2100";;
    mret false
  else
    setTextContent errorElementId "";; mret true.

(** The object read from the four controls of a form. *)
Module FormData.
Record t : Type := { name : string; destination : string; year : string;
                     status : string }.
End FormData.

Definition validateForm (formData : FormData.t) (prefix : string) : M bool :=
  NAME_VALID ← validateField (FormData.name formData)
                  (prefix +:+ "name-error") "El nombre es requerido";
  DESTINATION_VALID ← validateField (FormData.destination formData)
                  (prefix +:+ "destination-error") "El destino es requerido";
  YEAR_VALID ← validateYear (FormData.year formData)
                  (prefix +:+ "year-error");
  STATUS_VALID ← validateField (FormData.status formData)
                  (prefix +:+ "status-error") "El estado es requerido";
  mret (NAME_VALID && DESTINATION_VALID && YEAR_VALID && STATUS_VALID).

Definition createMission (t : Moment) (name destination year status : string)
  : M unit :=
  let mission := Mission_new t name destination year status in
  modify (fun s => set_missions (missions s ++ [mission]) s);;
  saveMissions;;
  renderMissions.

(** The four assignments of [updateMission] to the record found. *)
Definition assign (name destination year status : string) (m : Mission)
  : Mission :=
  {| id := id m;
     name := VStr name;
     destination := VStr destination;
     year := VNum (parseInt year);
     status := VStr status;
     createdAt := createdAt m |}.

Definition updateMission (i : value) (name destination year status : string)
  : M unit :=
  s ← get;
  match find_mission i (missions s) with
  | Some (k, mission) =>
      modify (set_missions
        (<[k := assign name destination year status mission]> (missions s)));;
      saveMissions;;
      renderMissions
  | None => mret tt
  end.

Definition deleteMission (i : value) : M unit :=
  modify (fun s =>
    set_missions (filter (fun mission => strict_ne (id mission) i) (missions s)) s);;
  saveMissions;;
  renderMissions.

(** [handleSubmit], on the object it reads from the create form.  The
    controls are not part of the state, so [this.form.reset()] has nothing
    to do here. *)
Definition handleSubmit (t : Moment) (formData : FormData.t) : M bool :=
  valid ← validateForm formData "";
  (if valid : bool then
     createMission t (FormData.name formData) (FormData.destination formData)
       (FormData.year formData) (FormData.status formData)
   else mret tt);;
  mret false.

(** [handleEditSubmit], on the object it reads from the edit form. *)
Definition handleEditSubmit (formData : FormData.t) : M bool :=
  valid ← validateForm formData "edit-";
  (if valid : bool then
     s ← get;
     updateMission (editingMissionId s)
       (FormData.name formData) (FormData.destination formData)
       (FormData.year formData) (FormData.status formData);;
     closeEditModal
   else mret tt);;
  mret false.

(** The click on a card's delete button, with the answer to [confirm]. *)
Definition onDeleteClick (i : value) (confirmed : bool) : M unit :=
  if confirmed then deleteMission i else mret tt.

(** [new MissionManager()] *)
Definition MissionManager_new (t1 t2 t3 : Moment) : M unit :=
  ms ← loadMissions t1 t2 t3;
  modify (set_missions ms);;
  modify (set_editingMissionId VNull);;
  createEditModal;;
  renderMissions.

(** The state once [saveMissions] and [renderMissions] have stored and
    shown the collection [ms]. *)
Definition committed (ms : list Mission) (s : State) : State :=
  {| missions := ms;
     editingMissionId := editingMissionId s;
     listContainer := match listContainer s with
                      | None => None
                      | Some _ => Some ms
                      end;
     localStorage := <[MISSIONS_STORAGE_KEY := JSON_stringify ms]> (localStorage s);
     textContent := textContent s;
     modal := modal s |}.

(** ** Vocabulary for the statements *)

(** The four error elements of the form with this prefix are in the
    document. *)
Definition errors_present (prefix : string) (s : State) : Prop :=
  is_Some (textContent s !! (prefix +:+ "name-error"))
  /\ is_Some (textContent s !! (prefix +:+ "destination-error"))
  /\ is_Some (textContent s !! (prefix +:+ "year-error"))
  /\ is_Some (textContent s !! (prefix +:+ "status-error")).

(** What the error elements of the form with this prefix show once
    [validateForm] has run on [formData]: each its own message when its
    field fails, each empty when its field passes. *)
Definition reports (prefix : string) (formData : FormData.t) (s : State)
  : Prop :=
  textContent s !! (prefix +:+ "name-error")
    = Some (if blank (FormData.name formData)
            then "El nombre es requerido" else "")
  /\ textContent s !! (prefix +:+ "destination-error")
    = Some (if blank (FormData.destination formData)
            then "El destino es requerido" else "")
  /\ textContent s !! (prefix +:+ "year-error")
    = Some (if year_missing (FormData.year formData)
            then "El año es requerido"
            else if year_out_of_range (FormData.year formData)
            then "El año debe estar entre 1957 y 2100" else "")
  /\ textContent s !! (prefix +:+ "status-error")
    = Some (if blank (FormData.status formData)
            then "El estado es requerido" else "").

(** The collection, its stored copy, the cards, the record being edited
    and the modal are the same in both states. *)
Definition untouched (s s' : State) : Prop :=
  missions s' = missions s
  /\ localStorage s' = localStorage s
  /\ listContainer s' = listContainer s
  /\ editingMissionId s' = editingMissionId s
  /\ modal s' = modal s.

(** The outcome of the four checks of [validateForm]. *)
Definition passes (formData : FormData.t) : bool :=
  negb (blank (FormData.name formData))
  && negb (blank (FormData.destination formData))
  && negb (year_missing (FormData.year formData)
           || year_out_of_range (FormData.year formData))
  && negb (blank (FormData.status formData)).

(** What the user does to the collection: submits the create form, opens
    the modal on a card and submits the edit form, or deletes a card and
    confirms. *)
Inductive action : Type :=
| Create (t : Moment) (formData : FormData.t)
| Edit (i : value) (formData : FormData.t)
| Delete (i : value).

Definition perform (a : action) : M unit :=
  match a with
  | Create t formData => handleSubmit t formData;; mret tt
  | Edit i formData => openEditModal i;; handleEditSubmit formData;; mret tt
  | Delete i => onDeleteClick i true
  end.

Fixpoint perform_all (acts : list action) : M unit :=
  match acts with
  | [] => mret tt
  | a :: rest => perform a;; perform_all rest
  end.

(** The stored copy is the collection in memory. *)
Definition synced (s : State) : Prop :=
  localStorage s !! MISSIONS_STORAGE_KEY = Some (JSON_stringify (missions s)).

(** A value JSON can write: not [NaN], not an infinity. *)
Definition writable (v : value) : Prop :=
  match v with
  | VNum (Fin _) | VNull | VStr _ => True
  | VNum _ => False
  end.

Definition writable_record (m : Mission) : Prop :=
  writable (id m) /\ writable (name m) /\ writable (destination m)
  /\ writable (year m) /\ writable (status m) /\ writable (createdAt m).

(** The forms and the modal the handlers look up are in the document. *)
Definition page_ok (s : State) : Prop :=
  errors_present "" s /\ errors_present "edit-" s /\ is_Some (modal s).

(** No form of the actions passes validation with a year [parseInt] makes
    [NaN] of. *)
Definition years_parse (acts : list action) : Prop :=
  Forall (fun a =>
            match a with
            | Create _ formData | Edit _ formData =>
                passes formData = true ->
                parseInt (FormData.year formData) <> NaN
            | Delete _ => True
            end) acts.

(** ** A page to run the manager on *)

(** The Unix epoch, with 0 drawn. *)
Definition epoch : Moment :=
  {| Date_now := 0; Math_random := Qc_of_Z 0;
     toISOString := "1970-01-01T00:00:00.000Z" |}.

(** A page with the create form, its four error elements and the list
    container, before the manager is built; [stored] is what the storage
    holds under the key, if anything. *)
Definition page (stored : option text) : State :=
  {| missions := [];
     editingMissionId := VNull;
     listContainer := Some [];
     localStorage :=
       match stored with
       | Some t => {[ MISSIONS_STORAGE_KEY := t ]}
       | None => ∅
       end;
     textContent :=
       list_to_map [("name-error", ""); ("destination-error", "");
                    ("year-error", ""); ("status-error", "")];
     modal := None |}.

(** The same page once [new MissionManager()] has run on it at the
    epoch: the defaults are loaded and shown, nothing is stored yet, the
    modal and its error elements are in the document. *)
Definition ready : State :=
  {| missions := getDefaultMissions epoch epoch epoch;
     editingMissionId := VNull;
     listContainer := Some (getDefaultMissions epoch epoch epoch);
     localStorage := ∅;
     textContent :=
       list_to_map [("edit-name-error", ""); ("edit-destination-error", "");
                    ("edit-year-error", ""); ("edit-status-error", "");
                    ("name-error", ""); ("destination-error", "");
                    ("year-error", ""); ("status-error", "")];
     modal := Some "" |}.


(** A form whose year is written with a leading dot and an exponent. *)
Definition dotted_form : FormData.t :=
  {| FormData.name := "Europa Clipper"; FormData.destination := "Europa";
     FormData.year := ".2e4"; FormData.status := "planned" |}.

(** A form whose name and destination carry white space on both sides. *)
Definition padded_form : FormData.t :=
  {| FormData.name := "  Europa Clipper "; FormData.destination := " Europa  ";
     FormData.year := "2024"; FormData.status := "planned" |}.

End Script.

(* ================================================================== *)
(** * js/parallax.js: the parallax controller *)
(* ================================================================== *)

Module Parallax.
Import JS.

(** The string [translate(Xpx, Ypx) rotate(Rdeg)] by its three numbers. *)
Record Transform : Type := {
  translateX : num;
  translateY : num;
  rotate : num;
}.

(** A [.parallax-planet] element: what [getBoundingClientRect()] returns
    for it in the current cycle (the layout is the browser's, the rectangle
    is an input here), and its [style.transform]. *)
Record Planet : Type := {
  rect_top : num;
  rect_height : num;
  transform : option Transform;
}.

(** The controller, with the element [#scroll-progress] of the document:
    [progressBar] is [None] when the element is absent, and otherwise its
    [style.width], [Some w] once the string [w%] has been assigned. *)
Record State : Type := {
  scrollY : num;
  windowHeight : num;
  documentHeight : num;
  planets : list Planet;
  mouseX : num;
  mouseY : num;
  targetMouseX : num;
  targetMouseY : num;
  progressBar : option (option num);
}.

Definition set_mouse (x y : num) (c : State) : State :=
  {| scrollY := scrollY c; windowHeight := windowHeight c;
     documentHeight := documentHeight c; planets := planets c;
     mouseX := x; mouseY := y;
     targetMouseX := targetMouseX c; targetMouseY := targetMouseY c;
     progressBar := progressBar c |}.

Definition set_target (x y : num) (c : State) : State :=
  {| scrollY := scrollY c; windowHeight := windowHeight c;
     documentHeight := documentHeight c; planets := planets c;
     mouseX := mouseX c; mouseY := mouseY c;
     targetMouseX := x; targetMouseY := y;
     progressBar := progressBar c |}.

Definition set_planets (ps : list Planet) (c : State) : State :=
  {| scrollY := scrollY c; windowHeight := windowHeight c;
     documentHeight := documentHeight c; planets := ps;
     mouseX := mouseX c; mouseY := mouseY c;
     targetMouseX := targetMouseX c; targetMouseY := targetMouseY c;
     progressBar := progressBar c |}.

Definition set_progressBar (p : option (option num)) (c : State) : State :=
  {| scrollY := scrollY c; windowHeight := windowHeight c;
     documentHeight := documentHeight c; planets := planets c;
     mouseX := mouseX c; mouseY := mouseY c;
     targetMouseX := targetMouseX c; targetMouseY := targetMouseY c;
     progressBar := p |}.

Definition set_scrollY (y : num) (c : State) : State :=
  {| scrollY := y; windowHeight := windowHeight c;
     documentHeight := documentHeight c; planets := planets c;
     mouseX := mouseX c; mouseY := mouseY c;
     targetMouseX := targetMouseX c; targetMouseY := targetMouseY c;
     progressBar := progressBar c |}.

Definition set_transform (t : Transform) (p : Planet) : Planet :=
  {| rect_top := rect_top p; rect_height := rect_height p;
     transform := Some t |}.

Definition ofnat (n : nat) : num := ofZ (Z.of_nat n).

(** The vertical parallax term of a planet, [distanceFromCenter * 30]. *)
Definition parallaxY (c : State) (planet : Planet) : num :=
  let planetCenterY := add (rect_top planet) (div (rect_height planet) (ofZ 2)) in
  let distanceFromCenter :=
    div (sub planetCenterY (div (windowHeight c) (ofZ 2))) (windowHeight c) in
  mul distanceFromCenter (ofZ 30).

(** The transform the body of the [forEach] of [updatePlanets] computes. *)
Definition planet_transform (c : State) (index : nat) (planet : Planet)
  : Transform :=
  let scrollRotation :=
    mul (scrollY c) (add (ofQ 0.05) (mul (ofnat index) (ofQ 0.02))) in
  let mouseOffsetX := mul (mouseX c) (add (ofZ 10) (mul (ofnat index) (ofZ 5))) in
  let mouseOffsetY := mul (mouseY c) (add (ofZ 10) (mul (ofnat index) (ofZ 5))) in
  {| translateX := mouseOffsetX;
     translateY := add mouseOffsetY (parallaxY c planet);
     rotate := scrollRotation |}.

Definition updatePlanets (c : State) : State :=
  set_planets
    (imap (fun index planet => set_transform (planet_transform c index planet) planet)
          (planets c))
    c.

Definition updateProgress (c : State) : State :=
  match progressBar c with
  | None => c
  | Some _ =>
      let maxScroll := sub (documentHeight c) (windowHeight c) in
      let scrollPercentage := mul (div (scrollY c) maxScroll) (ofZ 100) in
      set_progressBar (Some (Some (Math_min scrollPercentage (ofZ 100)))) c
  end.

(** One step of the smoothing, [smoothed += (target - smoothed) * 0.1]. *)
Definition smooth (smoothed target : num) : num :=
  add smoothed (mul (sub target smoothed) (ofQ 0.1)).

Definition update (c : State) : State :=
  let c1 :=
    set_mouse (smooth (mouseX c) (targetMouseX c))
              (smooth (mouseY c) (targetMouseY c)) c in
  updateProgress (updatePlanets c1).

(** The scroll listener, where [requestAnimationFrame] is supported: it
    records the offset and leaves the update to the next cycle. *)
Definition onScroll (pageYOffset : num) (c : State) : State :=
  set_scrollY pageYOffset c.

(** The pointer listener, once its 10 ms timer has fired. *)
Definition onMouseMove (clientX clientY innerWidth innerHeight : num)
  (c : State) : State :=
  set_target (mul (sub (div clientX innerWidth) (ofQ 0.5)) (ofZ 2))
             (mul (sub (div clientY innerHeight) (ofQ 0.5)) (ofZ 2)) c.

(** What a cycle leaves of the distance to the target, [1 - 0.1]. *)
Definition ratio : Qc := Q2Qc 0.9.


End Parallax.

(* ================================================================== *)
(** * Class lists and intersection observers, as both scripts use them *)
(* ================================================================== *)

Module Dom.

(** The elements of the document by a handle, each with the set of its
    class names. *)
Abbreviation classes := (gmap nat (gset string)).

(** [element.classList.toggle(token)] *)
Definition classList_toggle (token : string) (classList : gset string)
  : gset string :=
  if decide (token ∈ classList) then classList ∖ {[ token ]}
  else classList ∪ {[ token ]}.

(** [element.classList.add(token)] on the element [el] of the document. *)
Definition classList_add (token : string) (el : nat) (dom : classes)
  : classes :=
  alter (fun classList => classList ∪ {[ token ]}) el dom.

(** The callback both scripts hand to [IntersectionObserver]:
    [entries.forEach(entry => { if (entry.isIntersecting)
    entry.target.classList.add(token) })].  An entry is its target and its
    [isIntersecting]. *)
Definition reveal (token : string) (entries : list (nat * bool)) (dom : classes)
  : classes :=
  foldl (fun d (entry : nat * bool) =>
           if entry.2 then classList_add token entry.1 d else d)
        dom entries.

End Dom.

(* ================================================================== *)
(** * js/script.js: planet cards, the card markup, start-up *)
(* ================================================================== *)

Module ScriptRest.
Import JS Script Dom.

Definition ACTIVE_CLASS : string := "active".

(** [PlanetCard.toggleActive], on the class list of the card. *)
Definition toggleActive (classList : gset string) : gset string :=
  classList_toggle ACTIVE_CLASS classList.

(** The callback of [ScrollAnimator.initializeObserver]. *)
Definition ScrollAnimator_callback (entries : list (nat * bool)) (dom : classes)
  : classes :=
  reveal "animate-in" entries dom.

(** ** Reading a property of an object literal

    [STATUS_CLASSES[status]] finds the own properties of the literal and,
    failing that, what every object inherits from [Object.prototype]; the
    inherited values are functions, or the prototype itself, none a string. *)

Definition Object_prototype : list string :=
  ["constructor"; "__proto__"; "hasOwnProperty"; "isPrototypeOf";
   "propertyIsEnumerable"; "toLocaleString"; "toString"; "valueOf";
   "__defineGetter__"; "__defineSetter__"; "__lookupGetter__";
   "__lookupSetter__"].

Inductive property : Type :=
| Own (v : string)
| Inherited
| Undefined.

Fixpoint own_property (literal : list (string * string)) (key : string)
  : option string :=
  match literal with
  | [] => None
  | (k, v) :: rest => if String.eqb k key then Some v else own_property rest key
  end.

Definition get_property (literal : list (string * string)) (key : string)
  : property :=
  match own_property literal key with
  | Some v => Own v
  | None => if bool_decide (key ∈ Object_prototype) then Inherited else Undefined
  end.

(** What a status helper returns: a string, or an inherited object. *)
Inductive looked_up : Type :=
| Str (s : string)
| Obj.

(** [p || fallback] *)
Definition or_else (p : property) (fallback : string) : looked_up :=
  match p with
  | Own v => if falsy v then Str fallback else Str v
  | Inherited => Obj
  | Undefined => Str fallback
  end.

Definition STATUS_CLASSES : list (string * string) :=
  [("active", "status-active"); ("completed", "status-completed");
   ("planned", "status-planned")].

Definition STATUS_TEXTS : list (string * string) :=
  [("active", "Activa"); ("completed", "Completada");
   ("planned", "Planificada")].

Definition getStatusClass (status : string) : looked_up :=
  or_else (get_property STATUS_CLASSES status) "status-planned".

Definition getStatusText (status : string) : looked_up :=
  or_else (get_property STATUS_TEXTS status) status.

(** ** escapeHtml

    [div.textContent = text; return div.innerHTML]: the text node is
    written back with [&], [<], [>] and the no-break space U+00A0 (the bytes
    194, 160) replaced by their entities. *)
Fixpoint escapeHtml (text : string) : string :=
  match text with
  | EmptyString => EmptyString
  | String c r =>
      if code c =? 38 then "&amp;" +:+ escapeHtml r
      else if code c =? 60 then "&lt;" +:+ escapeHtml r
      else if code c =? 62 then "&gt;" +:+ escapeHtml r
      else
        match r with
        | String c2 r2 =>
            if (code c =? 194) && (code c2 =? 160)
            then "&nbsp;" +:+ escapeHtml r2
            else String c (escapeHtml r)
        | EmptyString => String c (escapeHtml r)
        end
  end.

(** What an HTML parser makes of the four entities in character data:
    the text [escapeHtml] was given. *)
Fixpoint unescapeHtml (markup : string) : string :=
  match markup with
  | EmptyString => EmptyString
  | String c r =>
      if code c =? 38 then
        match r with
        | String "a" (String "m" (String "p" (String ";" r'))) =>
            String "&" (unescapeHtml r')
        | String "l" (String "t" (String ";" r')) =>
            String "<" (unescapeHtml r')
        | String "g" (String "t" (String ";" r')) =>
            String ">" (unescapeHtml r')
        | String "n" (String "b" (String "s" (String "p" (String ";" r')))) =>
            String "194" (String "160" (unescapeHtml r'))
        | _ => String c (unescapeHtml r)
        end
      else String c (unescapeHtml r)
  end.

(** ** initializeApp *)

(** The page at start-up: what the manager works on, whether the mission
    form is in the document, and what has been set up so far. *)
Record App : Type := {
  managed : State;
  missionForm : bool;
  planetCards : bool;
  manager : bool;
  scrollAnimator : bool;
  smoothScroll : bool;
}.


(** The page as the browser hands it to [initializeApp]. *)
Definition loaded (p : State) (form : bool) : App :=
  {| managed := p; missionForm := form; planetCards := false; manager := false;
     scrollAnimator := false; smoothScroll := false |}.


(** ** Data for the examples *)

(** One millisecond after the epoch. *)
Definition later : Moment :=
  {| Date_now := 1; Math_random := Qc_of_Z 0;
     toISOString := "1970-01-01T00:00:00.001Z" |}.

(** A string of decimal digits. *)
Definition is_digit (c : ascii) : bool := (48 <=? code c) && (code c <=? 57).

Fixpoint all_digits (s : string) : bool :=
  match s with
  | EmptyString => true
  | String c r => is_digit c && all_digits r
  end.

End ScriptRest.

(* ================================================================== *)
(** * js/parallax.js: set-up, listeners, stars *)
(* ================================================================== *)

Module ParallaxRest.
Import JS Parallax Dom.

(** [a || b] on numbers: [0] and [NaN] are falsy. *)
Definition or_num (a b : num) : num :=
  match a with
  | NaN => b
  | Fin q => if is_zero q then b else a
  | _ => a
  end.

(** [ScrollProgressBar.createProgressBar], on the element
    [#scroll-progress] of the document: absent ([None]), or present with its
    [style.width].  A new element has no width yet. *)
Definition createProgressBar (bar : option (option num)) : option (option num) :=
  match bar with
  | Some _ => bar
  | None => Some None
  end.

Definition set_heights (w d : num) (c : State) : State :=
  {| scrollY := scrollY c; windowHeight := w; documentHeight := d;
     planets := planets c; mouseX := mouseX c; mouseY := mouseY c;
     targetMouseX := targetMouseX c; targetMouseY := targetMouseY c;
     progressBar := progressBar c |}.

(** [new ParallaxController()]: the fields of the constructor, then
    [init]: its [update] and, where [requestAnimationFrame] is supported
    ([raf]), the [update] of the first [animate].  [bar] is the
    [#scroll-progress] element of the document. *)
Definition ParallaxController_new (raf : bool)
  (pageYOffset scrollTop innerHeight scrollHeight : num)
  (planets : list Planet) (bar : option (option num)) : State :=
  let c :=
    {| scrollY := or_num pageYOffset scrollTop;
       windowHeight := innerHeight;
       documentHeight := scrollHeight;
       planets := planets;
       mouseX := ofZ 0; mouseY := ofZ 0;
       targetMouseX := ofZ 0; targetMouseY := ofZ 0;
       progressBar := bar |} in
  if raf then update (update c) else update c.

(** The scroll listener; [raf] is [supports.requestAnimationFrame].
    [ticking] is false from the constructor on and nothing sets it. *)
Definition scroll_listener (raf : bool) (pageYOffset scrollTop : num)
  (c : State) : State :=
  let c1 := set_scrollY (or_num pageYOffset scrollTop) c in
  if raf then c1 else update c1.

(** The resize listener, once its 150 ms timer has fired. *)
Definition resize_listener (innerHeight scrollHeight : num) (c : State)
  : State :=
  update (set_heights innerHeight scrollHeight c).

(** What happens to the controller once it is built: an animation cycle,
    or one of the three listeners. *)
Inductive event : Type :=
| Cycle
| Pointer (clientX clientY innerWidth innerHeight : num)
| Scrolled (pageYOffset scrollTop : num)
| Resized (innerHeight scrollHeight : num).

Definition handle (raf : bool) (c : State) (e : event) : State :=
  match e with
  | Cycle => update c
  | Pointer x y w h => onMouseMove x y w h c
  | Scrolled a b => scroll_listener raf a b c
  | Resized h d => resize_listener h d c
  end.

Definition run (raf : bool) (events : list event) (c : State) : State :=
  foldl (handle raf) c events.

(** The pointer is over the window: [0 <= clientX <= innerWidth] and
    [0 <= clientY <= innerHeight], the window having a width and a height. *)
Definition inside (e : event) : Prop :=
  match e with
  | Pointer (Fin x) (Fin y) (Fin w) (Fin h) =>
      (0 <= x)%Qc /\ (x <= w)%Qc /\ (0 < w)%Qc
      /\ (0 <= y)%Qc /\ (y <= h)%Qc /\ (0 < h)%Qc
  | Pointer _ _ _ _ => False
  | _ => True
  end.

(** A number between -1 and 1. *)
Definition unit_range (a : num) : Prop :=
  match a with
  | Fin q => (- Q2Qc 1 <= q)%Qc /\ (q <= Q2Qc 1)%Qc
  | _ => False
  end.

(** A number that is not finite. *)
Definition not_finite (a : num) : Prop :=
  match a with Fin _ => False | _ => True end.

(** The invariant of the controller: offsets and targets within [-1, 1]. *)
Definition in_range (c : State) : Prop :=
  unit_range (mouseX c) /\ unit_range (mouseY c)
  /\ unit_range (targetMouseX c) /\ unit_range (targetMouseY c).

(** ** StarsEnhancer *)

(** A [.star-point]: the numbers of its [style.cssText]. *)
Record Star : Type := {
  size : num;
  top : num;
  left : num;
  opacity : num;
  duration : num;
  delay : num;
}.

(** The star of one turn of the loop; [random k] is the [k]-th value
    [Math.random()] returns, the turn starts at the [k]-th. *)
Definition new_star (random : nat -> Qc) (k : nat) : Star :=
  {| size := add (mul (Fin (random k)) (ofZ 2)) (ofZ 1);
     top := mul (Fin (random (k + 1)%nat)) (ofZ 100);
     left := mul (Fin (random (k + 2)%nat)) (ofZ 100);
     opacity := add (mul (Fin (random (k + 3)%nat)) (ofQ 0.7)) (ofQ 0.3);
     duration := add (ofZ 2) (mul (Fin (random (k + 4)%nat)) (ofZ 3));
     delay := mul (Fin (random (k + 5)%nat)) (ofZ 3) |}.

(** [window.innerWidth < 768 ? 50 : 100] *)
Definition starsCount (innerWidth : num) : nat :=
  if lt innerWidth (ofZ 768) then 50%nat else 100%nat.

(** The [for] loop: [n] stars, from the [k]-th random value on. *)
Fixpoint stars_from (random : nat -> Qc) (k n : nat) : list Star :=
  match n with
  | O => []
  | S n' => new_star random k :: stars_from random (k + 6) n'
  end.

(** [createDynamicStars], on the children of the [.stars] containers, from
    the [k]-th random value on. *)
Fixpoint createDynamicStars (innerWidth : num) (random : nat -> Qc) (k : nat)
  (containers : list (list Star)) : list (list Star) :=
  match containers with
  | [] => []
  | container :: rest =>
      (container ++ stars_from random k (starsCount innerWidth))
      :: createDynamicStars innerWidth random (k + 6 * starsCount innerWidth) rest
  end.

(** ** SectionObserver *)

(** The callback of [SectionObserver.init]. *)
Definition SectionObserver_callback (entries : list (nat * bool)) (dom : classes)
  : classes :=
  reveal "section-visible" entries dom.

(** [SectionObserver.init]; [io] is [supports.intersectionObserver].
    With an observer nothing changes until its callback runs. *)
Definition SectionObserver_init (io : bool) (sections : list nat) (dom : classes)
  : classes :=
  if io then dom
  else foldl (fun d section => classList_add "section-visible" section d)
             dom sections.

(** ** initParallax *)

(** What [initParallax] leaves: the controller (with the progress bar of
    the document), the children of the [.stars] containers and the classes
    of the sections. *)
Record Effects : Type := {
  controller : State;
  starsContainers : list (list Star);
  sectionClasses : classes;
}.

(** [initParallax]: nothing without a [.parallax-section]; otherwise the
    progress bar, the stars, the section observer and the controller, in
    this order.  [sections] are the [.parallax-section] elements, [raf] and
    [io] the two entries of [supports].  The style sheets
    [PerformanceOptimizer] appends are outside this model. *)
Definition initParallax (raf io : bool)
  (pageYOffset scrollTop innerWidth innerHeight scrollHeight : num)
  (random : nat -> Qc) (planets : list Planet) (sections : list nat)
  (bar : option (option num)) (containers : list (list Star)) (dom : classes)
  : option Effects :=
  match sections with
  | [] => None
  | _ :: _ =>
      let bar1 := createProgressBar bar in
      let containers1 := createDynamicStars innerWidth random 0 containers in
      let dom1 := SectionObserver_init io sections dom in
      let c := ParallaxController_new raf pageYOffset scrollTop innerHeight
                 scrollHeight planets bar1 in
      Some {| controller := c; starsContainers := containers1;
              sectionClasses := dom1 |}
  end.



End ParallaxRest.

(* ================================================================== *)
(** * Facts about the host *)
(* ================================================================== *)

Module JSFacts.
Import JS.

(** Two canonical rationals with the same value are the same. *)
Ltac qc_eq := apply Qc_is_canon; reflexivity.

(** Goals on [Qc] restated on the rationals below them. *)
Ltac qc2q :=
  unfold Qcle, Qclt, Qcplus, Qcmult, Qcminus, Qcopp, Qcdiv, Qcinv, Qcabs,
    Q2Qc, Qc_of_Z in *;
  cbn [this] in *; repeat (rewrite ?Qred_correct in * ).

(** Strict equality of two numbers is their identity, [NaN] apart. *)
Lemma num_eq_true (a b : num) : num_eq a b = true -> a = b.
Proof.
  destruct a, b; cbn; try done.
  intros H. by apply bool_decide_eq_true in H as ->.
Qed.

Lemma num_eq_refl (a : num) : a <> NaN -> num_eq a a = true.
Proof. destruct a; cbn; try done. intros _. by apply bool_decide_eq_true. Qed.

(** A closed equation between numbers, by evaluation. *)
Ltac num_eq := apply num_eq_true; vm_compute; reflexivity.

Lemma ofZ_inj (a b : Z) : ofZ a = ofZ b -> a = b.
Proof.
  unfold ofZ, Qc_of_Z. intros H. by injection H as H.
Qed.



Lemma Math_min_le (a b : num) : lt b (Math_min a b) = false.
Proof.
  assert (Hirr : forall q : Qc, bool_decide (q < q)%Qc = false).
  { intros q. apply bool_decide_eq_false. intros H. by apply Qclt_not_eq in H. }
  destruct a as [| | |p], b as [| | |q]; cbn; try reflexivity; auto.
  destruct (bool_decide (q < p)%Qc) eqn:E; cbn; auto.
Qed.

(** *** Trimming *)






End JSFacts.

(* ================================================================== *)
(** * Facts about js/parallax.js *)
(* ================================================================== *)

Module ParallaxFacts.
Import JS JSFacts Parallax.



Lemma update_mouse (c : State) :
  mouseX (update c) = smooth (mouseX c) (targetMouseX c)
  /\ mouseY (update c) = smooth (mouseY c) (targetMouseY c).
Proof. unfold update, updateProgress, updatePlanets. by destruct (progressBar _). Qed.

Lemma update_frame (c : State) :
  targetMouseX (update c) = targetMouseX c
  /\ targetMouseY (update c) = targetMouseY c
  /\ scrollY (update c) = scrollY c
  /\ windowHeight (update c) = windowHeight c
  /\ documentHeight (update c) = documentHeight c.
Proof. unfold update, updateProgress, updatePlanets. by destruct (progressBar _). Qed.







(** C7.  Every cycle ends with [updateProgress]: when the page has no
    [#scroll-progress] element it does nothing, and otherwise the width
    assigned is [min(scrollY / (documentHeight - windowHeight) * 100, 100)]
    percent, which never exceeds 100.  With a document of height 3000 in a
    window of height 1000, the offset 2000 gives 100% and the offset 1000
    gives 50%. *)
Theorem progress_width :
  (forall c : State,
     match progressBar c with
     | None => updateProgress c = c /\ progressBar (update c) = None
     | Some _ =>
         progressBar (update c)
         = Some (Some (Math_min
             (mul (div (scrollY c) (sub (documentHeight c) (windowHeight c)))
                  (ofZ 100))
             (ofZ 100)))
     end)
  /\ (forall c : State,
       match progressBar (update c) with
       | Some (Some w) => lt (ofZ 100) w = false
       | _ => True
       end)
  /\ (forall ps mx my tx ty w,
       progressBar (update
         {| scrollY := ofZ 2000; windowHeight := ofZ 1000;
            documentHeight := ofZ 3000; planets := ps;
            mouseX := mx; mouseY := my; targetMouseX := tx; targetMouseY := ty;
            progressBar := Some w |})
       = Some (Some (ofZ 100)))
  /\ (forall ps mx my tx ty w,
       progressBar (update
         {| scrollY := ofZ 1000; windowHeight := ofZ 1000;
            documentHeight := ofZ 3000; planets := ps;
            mouseX := mx; mouseY := my; targetMouseX := tx; targetMouseY := ty;
            progressBar := Some w |})
       = Some (Some (ofZ 50))).
Proof.
  assert (Hw : forall c : State,
    match progressBar c with
    | None => updateProgress c = c /\ progressBar (update c) = None
    | Some _ =>
        progressBar (update c)
        = Some (Some (Math_min
            (mul (div (scrollY c) (sub (documentHeight c) (windowHeight c)))
                 (ofZ 100))
            (ofZ 100)))
    end).
  { intros c. unfold update, updateProgress, updatePlanets.
    destruct (progressBar c) eqn:E; cbn; rewrite ?E; cbn; rewrite ?E; done. }
  split; [exact Hw|]. split; [|split].
  - intros c. specialize (Hw c). destruct (progressBar c) eqn:E.
    + rewrite Hw. apply Math_min_le.
    + destruct Hw as [_ ->]. exact I.
  - intros. unfold update, updateProgress, updatePlanets. cbn.
    do 2 f_equal. num_eq.
  - intros. unfold update, updateProgress, updatePlanets. cbn.
    do 2 f_equal. num_eq.
Qed.



End ParallaxFacts.

(* ================================================================== *)
(** * Facts about js/script.js *)
(* ================================================================== *)

Module ScriptFacts.
Import JS JSFacts Script.

(** Unfolds the statements of the monad. *)
Ltac run :=
  unfold mbind, mret, M_bind, M_ret, get, modify, throw in *; cbn in *.

(** *** Strict equality *)

Lemma strict_eq_true (a b : value) : strict_eq a b = true -> a = b.
Proof.
  destruct a, b; cbn; try done.
  - intros H. by apply num_eq_true in H as ->.
  - intros H. by apply String.eqb_eq in H as ->.
Qed.

(** *** Saving and rendering *)

Lemma saveMissions_run (s : State) :
  saveMissions s
  = Ok tt (set_localStorage
      (<[MISSIONS_STORAGE_KEY := JSON_stringify (missions s)]> (localStorage s)) s).
Proof. reflexivity. Qed.


Lemma createMission_run (t : Moment) (n d y st : string) (s : State) :
  createMission t n d y st s
  = Ok tt (committed (missions s ++ [Mission_new t n d y st]) s).
Proof.
  unfold createMission, saveMissions, renderMissions. run.
  by destruct s as [ms e [c|] sto tc mo].
Qed.

Lemma deleteMission_run (i : value) (s : State) :
  deleteMission i s
  = Ok tt (committed (filter (fun m => strict_ne (id m) i) (missions s)) s).
Proof.
  unfold deleteMission, saveMissions, renderMissions. run.
  by destruct s as [ms e [c|] sto tc mo].
Qed.

Lemma updateMission_run (i : value) (n d y st : string) (s : State) :
  updateMission i n d y st s
  = match find_mission i (missions s) with
    | Some (k, m) => Ok tt (committed (<[k := assign n d y st m]> (missions s)) s)
    | None => Ok tt s
    end.
Proof.
  unfold updateMission, saveMissions, renderMissions. run.
  destruct (find_mission i (missions s)) as [[k m]|]; [|done].
  run. by destruct s as [ms e [c|] sto tc mo].
Qed.

(** *** Loading *)

Lemma parse_error_propagates (t1 t2 t3 : Moment) (s : State) :
  localStorage s !! MISSIONS_STORAGE_KEY = Some Malformed ->
  loadMissions t1 t2 t3 s = Throw SyntaxError s
  /\ MissionManager_new t1 t2 t3 s = Throw SyntaxError s.
Proof.
  intros H. unfold MissionManager_new, loadMissions. run. by rewrite H.
Qed.

(** C1, as amended.  [loadMissions] returns the three default records,
    in that order, when nothing is stored under the key and when the empty
    string is; a stored array is returned as parsed; a stored string that is
    not JSON makes [JSON.parse] throw a [SyntaxError] that nothing catches:
    [loadMissions] throws it and so does the constructor.  The defaults are
    Voyager 1 / 1977 / active, Apollo 11 / 1969 / completed and
    Mars 2020 / 2020 / active. *)
Theorem load_cases (t1 t2 t3 : Moment) (s : State) :
  match localStorage s !! MISSIONS_STORAGE_KEY with
  | None | Some Empty =>
      loadMissions t1 t2 t3 s = Ok (getDefaultMissions t1 t2 t3) s
  | Some (JSONText rs) =>
      loadMissions t1 t2 t3 s = Ok (map revive_record rs) s
  | Some Malformed =>
      loadMissions t1 t2 t3 s = Throw SyntaxError s
      /\ MissionManager_new t1 t2 t3 s = Throw SyntaxError s
  end
  /\ map (fun m => (name m, destination m, year m, status m))
         (getDefaultMissions t1 t2 t3)
     = [ (VStr "Voyager 1", VStr "Espacio Interestelar", VNum (ofZ 1977), VStr "active");
         (VStr "Apollo 11", VStr "Luna", VNum (ofZ 1969), VStr "completed");
         (VStr "Mars 2020", VStr "Marte", VNum (ofZ 2020), VStr "active") ].
Proof.
  split; [|reflexivity].
  unfold MissionManager_new, loadMissions. run.
  destruct (localStorage s !! MISSIONS_STORAGE_KEY) as [[| |rs]|]; by cbn.
Qed.

(** C1 as stated fails: with a string that is not JSON under the key,
    [loadMissions] does not return the defaults, it throws. *)
Lemma load_malformed_throws :
  loadMissions epoch epoch epoch (page (Some Malformed))
  = Throw SyntaxError (page (Some Malformed))
  /\ loadMissions epoch epoch epoch (page (Some Malformed))
     <> Ok (getDefaultMissions epoch epoch epoch) (page (Some Malformed))
  /\ MissionManager_new epoch epoch epoch (page (Some Malformed))
     = Throw SyntaxError (page (Some Malformed)).
Proof.
  assert (H : localStorage (page (Some Malformed)) !! MISSIONS_STORAGE_KEY
              = Some Malformed) by apply lookup_singleton_eq.
  destruct (parse_error_propagates epoch epoch epoch (page (Some Malformed)) H) as [E1 E2].
  rewrite E1. done.
Qed.

(** *** Deleting *)

Lemma strict_ne_spec (a b : value) : strict_ne a b <-> strict_eq a b = false.
Proof. unfold strict_ne. by destruct (strict_eq a b). Qed.

(** C2.  [deleteMission(id)] keeps, in their order, exactly the records
    whose id is not the given one, then stores the result.  Where one record
    has that id (ids are unique) it alone goes; where none has it the
    collection is unchanged. *)
Theorem delete_exact (i : value) (s : State) :
  exists s' : State,
    deleteMission i s = Ok tt s'
    /\ missions s' `sublist_of` missions s
    /\ (forall m, m ∈ missions s' <-> m ∈ missions s /\ strict_eq (id m) i = false)
    /\ (forall l1 m l2,
          missions s = l1 ++ m :: l2 ->
          strict_eq (id m) i = true ->
          Forall (fun m' => strict_eq (id m') i = false) (l1 ++ l2) ->
          missions s' = l1 ++ l2)
    /\ (Forall (fun m => strict_eq (id m) i = false) (missions s) ->
        missions s' = missions s)
    /\ localStorage s' !! MISSIONS_STORAGE_KEY
       = Some (JSON_stringify (missions s')).
Proof.
  assert (Hid : forall l : list Mission,
            Forall (fun m => strict_eq (id m) i = false) l ->
            filter (fun m => strict_ne (id m) i) l = l).
  { intros l H. induction H as [|m l Hm _ IH]; [done|].
    rewrite filter_cons_True by by apply strict_ne_spec. by rewrite IH. }
  eexists. split; [apply deleteMission_run|]. cbn.
  split; [apply sublist_filter|]. split; [|split; [|split]].
  - intros m. rewrite list_elem_of_filter, strict_ne_spec. tauto.
  - intros l1 m l2 -> Hm Hrest.
    rewrite filter_app, filter_cons_False, <- filter_app.
    + by apply Hid.
    + rewrite strict_ne_spec. congruence.
  - apply Hid.
  - apply lookup_insert_eq.
Qed.

(** *** Updating *)

Lemma find_mission_Some (i : value) (ms : list Mission) (k : nat) (m : Mission) :
  find_mission i ms = Some (k, m) ->
  ms !! k = Some m /\ strict_eq (id m) i = true.
Proof.
  unfold find_mission. intros (H1 & H2 & _)%list_find_Some.
  split; [done|]. by apply Is_true_true.
Qed.

Lemma find_mission_None (i : value) (ms : list Mission) :
  find_mission i ms = None <->
  Forall (fun m => strict_eq (id m) i = false) ms.
Proof.
  unfold find_mission. rewrite list_find_None.
  apply Forall_iff. intros m. destruct (strict_eq (id m) i); cbn; naive_solver.
Qed.

(** C5.  [updateMission] on an id some record has: the first such record
    gets the four values ([year] through [parseInt]) and keeps its id and
    its [createdAt]; every other position of the collection is unchanged;
    the result is stored.  On an id no record has: the state, storage
    included, is unchanged. *)
Theorem update_exact (i : value) (n d y st : string) (s : State) :
  match find_mission i (missions s) with
  | Some (k, m) =>
      missions s !! k = Some m /\ strict_eq (id m) i = true
      /\ exists s' : State,
           updateMission i n d y st s = Ok tt s'
           /\ missions s' !! k
              = Some {| id := id m; name := VStr n; destination := VStr d;
                        year := VNum (parseInt y); status := VStr st;
                        createdAt := createdAt m |}
           /\ (forall j, j <> k -> missions s' !! j = missions s !! j)
           /\ length (missions s') = length (missions s)
           /\ localStorage s'
              = <[MISSIONS_STORAGE_KEY := JSON_stringify (missions s')]>
                  (localStorage s)
  | None =>
      Forall (fun m => strict_eq (id m) i = false) (missions s)
      /\ updateMission i n d y st s = Ok tt s
  end.
Proof.
  rewrite updateMission_run.
  destruct (find_mission i (missions s)) as [[k m]|] eqn:E.
  - destruct (find_mission_Some _ _ _ _ E) as [Hk Hm].
    split; [done|]. split; [done|]. eexists. split; [done|]. cbn.
    split; [|split; [|split]].
    + apply list_lookup_insert_eq. by eapply lookup_lt_Some.
    + intros j Hj. by apply list_lookup_insert_ne.
    + apply length_insert.
    + done.
  - split; [by apply find_mission_None|done].
Qed.

(** *** Validation *)

Lemma setTextContent_run (elementId t : string) (s : State) :
  is_Some (textContent s !! elementId) ->
  setTextContent elementId t s
  = Ok tt (set_textContent (<[elementId := t]> (textContent s)) s).
Proof. intros [x Hx]. unfold setTextContent. run. by rewrite Hx. Qed.

Lemma validateField_run (value errorElementId errorMessage : string) (s : State) :
  is_Some (textContent s !! errorElementId) ->
  validateField value errorElementId errorMessage s
  = Ok (negb (blank value))
       (set_textContent
          (<[errorElementId := if blank value then errorMessage else ""]>
             (textContent s)) s).
Proof.
  intros H. unfold validateField.
  destruct (blank value); unfold mbind, M_bind;
    by rewrite setTextContent_run.
Qed.

Lemma validateYear_run (year errorElementId : string) (s : State) :
  is_Some (textContent s !! errorElementId) ->
  validateYear year errorElementId s
  = Ok (negb (year_missing year || year_out_of_range year))
       (set_textContent
          (<[errorElementId :=
               if year_missing year then "El año es requerido"
               else if year_out_of_range year
               then "El año debe estar entre 1957 y 2100" else ""]>
             (textContent s)) s).
Proof.
  intros H. unfold validateYear.
  destruct (year_missing year); [|destruct (year_out_of_range year)];
    unfold mbind, M_bind; by rewrite setTextContent_run.
Qed.

Lemma append_inj_l (p a b : string) : p +:+ a = p +:+ b -> a = b.
Proof. induction p as [|c p IH]; cbn; [done|]. intros [= H]. by apply IH. Qed.

(** [validateForm] runs its four checks whatever each of them finds, and
    touches nothing but the four error elements. *)
Lemma validateForm_run (formData : FormData.t) (prefix : string) (s : State) :
  errors_present prefix s ->
  exists s' : State,
    validateForm formData prefix s = Ok (passes formData) s'
    /\ untouched s s'
    /\ reports prefix formData s'
    /\ (forall p, errors_present p s -> errors_present p s').
Proof.
  intros (H1 & H2 & H3 & H4). unfold validateForm.
  unfold mbind at 1, M_bind at 1. rewrite validateField_run by done.
  unfold mbind at 1, M_bind at 1. rewrite validateField_run
    by (cbn; by apply lookup_insert_is_Some'; right).
  unfold mbind at 1, M_bind at 1. rewrite validateYear_run
    by (cbn; by do 2 (apply lookup_insert_is_Some'; right)).
  unfold mbind at 1, M_bind at 1. rewrite validateField_run
    by (cbn; by do 3 (apply lookup_insert_is_Some'; right)).
  eexists. split; [reflexivity|]. cbn.
  assert (Hne : forall a b : string, a <> b -> prefix +:+ a <> prefix +:+ b)
    by (intros a b Hab E; by apply Hab, (append_inj_l prefix)).
  split; [done|]. split.
  - unfold reports. cbn.
    rewrite !lookup_insert_eq.
    rewrite !(lookup_insert_ne _ (prefix +:+ "status-error")) by by apply Hne.
    rewrite !lookup_insert_eq.
    rewrite !(lookup_insert_ne _ (prefix +:+ "year-error")) by by apply Hne.
    rewrite !lookup_insert_eq.
    rewrite !(lookup_insert_ne _ (prefix +:+ "destination-error")) by by apply Hne.
    by rewrite !lookup_insert_eq.
  - intros p (P1 & P2 & P3 & P4). unfold errors_present. cbn.
    repeat split; by do 4 (apply lookup_insert_is_Some'; right).
Qed.

(** The tests of the code in the words of the specification. *)







(** *** The two submit handlers *)

Lemma handleSubmit_run (t : Moment) (formData : FormData.t) (s : State) :
  errors_present "" s ->
  exists sv : State,
    untouched s sv /\ reports "" formData sv
    /\ (forall p, errors_present p s -> errors_present p sv)
    /\ handleSubmit t formData s
       = Ok false
           (if passes formData
            then committed
                   (missions s ++
                      [Mission_new t (FormData.name formData)
                         (FormData.destination formData)
                         (FormData.year formData) (FormData.status formData)])
                   sv
            else sv).
Proof.
  intros H. destruct (validateForm_run formData "" s H)
    as (sv & Hv & Hu & Hr & Hp).
  exists sv. split; [done|]. split; [done|]. split; [done|].
  unfold handleSubmit. unfold mbind at 1, M_bind at 1. rewrite Hv.
  destruct (passes formData); [|done].
  unfold mbind, M_bind. rewrite createMission_run.
  by destruct Hu as (-> & _).
Qed.

Lemma handleEditSubmit_run (formData : FormData.t) (s : State) :
  errors_present "edit-" s ->
  exists sv : State,
    untouched s sv /\ reports "edit-" formData sv
    /\ (forall p, errors_present p s -> errors_present p sv)
    /\ handleEditSubmit formData s
       = if passes formData
         then match updateMission (editingMissionId s)
                      (FormData.name formData) (FormData.destination formData)
                      (FormData.year formData) (FormData.status formData) sv with
              | Ok _ su =>
                  match closeEditModal su with
                  | Ok _ sc => Ok false sc
                  | Throw e sc => Throw e sc
                  end
              | Throw e su => Throw e su
              end
         else Ok false sv.
Proof.
  intros H. destruct (validateForm_run formData "edit-" s H)
    as (sv & Hv & Hu & Hr & Hp).
  exists sv. split; [done|]. split; [done|]. split; [done|].
  unfold handleEditSubmit. unfold mbind at 1, M_bind at 1. rewrite Hv.
  destruct (passes formData); [|done].
  destruct Hu as (_ & _ & _ & <- & _).
  unfold mbind, M_bind, get.
  destruct (updateMission _ _ _ _ _ sv) as [[] su|e su]; [|done].
  by destruct (closeEditModal su) as [[] sc|e sc].
Qed.



(** *** Creating *)





(** *** White space around a name or a destination *)

Lemma closeEditModal_run (s : State) :
  is_Some (modal s) ->
  closeEditModal s
  = Ok tt (set_editingMissionId VNull (set_modal (Some "none") s)).
Proof. intros [d Hd]. unfold closeEditModal. run. by rewrite Hd. Qed.



(** *** The year that is stored *)

(** [parseInt] gives an integer or [NaN]. *)
Lemma parseInt_integer_or_NaN (y : string) :
  parseInt y = NaN \/ is_integer (parseInt y).
Proof.
  unfold parseInt.
  destruct (read_sign (trimStart y)) as [minus r].
  destruct (match r with
            | String "0" (String p r'') =>
                if (code p =? 120) || (code p =? 88) then (16, r'') else (10, r)
            | _ => (10, r)
            end) as [radix r'].
  destruct (read_digits radix r' 0 0) as [[v k] rest].
  destruct k; [by left|right]. by eexists.
Qed.

Lemma NaN_not_integer : ~ is_integer NaN.
Proof. by intros [z Hz]. Qed.

(** C9, on the code.  The year typed [2000.9] passes the check and is
    stored as 2000.  The year typed [.2e4] passes the check as well, being
    the number 2000 for [isNaN] and for the comparisons, and [parseInt] makes
    [NaN] of it: the record [handleSubmit] appends has a year that is not an
    integer.  The year typed [1.9575e3], the number 1957.5, is stored as 1,
    not as its integer part. *)
Theorem year_through_parseInt :
  (Number "2000.9" = ofQ 2000.9 /\ parseInt "2000.9" = ofZ 2000
   /\ year_missing "2000.9" = false /\ year_out_of_range "2000.9" = false)
  /\ (Number ".2e4" = ofZ 2000 /\ parseInt ".2e4" = NaN
      /\ year_missing ".2e4" = false /\ year_out_of_range ".2e4" = false)
  /\ (Number "1.9575e3" = ofQ 1957.5 /\ parseInt "1.9575e3" = ofZ 1
      /\ year_missing "1.9575e3" = false /\ year_out_of_range "1.9575e3" = false)
  /\ (exists (s' : State) (m : Mission),
        handleSubmit epoch dotted_form ready = Ok false s'
        /\ last (missions s') = Some m
        /\ year m = VNum NaN
        /\ ~ is_integer NaN)
  /\ (forall (t : Moment) (n d y st : string),
        year (Mission_new t n d y st) = VNum (parseInt y)
        /\ forall m, year (assign n d y st m) = VNum (parseInt y)).
Proof.
  split; [by repeat split|]. split; [by repeat split|].
  split; [by repeat split|]. split; [|done].
  assert (Hc : errors_present "" ready) by (repeat split; by eexists).
  destruct (handleSubmit_run epoch dotted_form ready Hc)
    as (sv & _ & _ & _ & E).
  change (passes _) with true in E.
  eexists _, _. split; [exact E|]. cbn.
  split; [reflexivity|]. split; [done|]. apply NaN_not_integer.
Qed.

(** *** Storing and loading back *)

Lemma revive_serialize (v : value) : writable v -> revive (serialize v) = v.
Proof. by destruct v as [|[]|]. Qed.

Lemma revive_serialize_record (m : Mission) :
  writable_record m -> revive_record (serialize_record m) = m.
Proof.
  intros (H1 & H2 & H3 & H4 & H5 & H6). destruct m. cbn in *.
  unfold revive_record, serialize_record. cbn.
  by rewrite !revive_serialize.
Qed.

(** What [loadMissions] returns from a stored copy of the collection. *)
Lemma load_synced (t1 t2 t3 : Moment) (s : State) :
  synced s ->
  loadMissions t1 t2 t3 s
  = Ok (map (fun m => revive_record (serialize_record m)) (missions s)) s.
Proof.
  intros H. unfold loadMissions. run. rewrite H. cbn.
  by rewrite map_map.
Qed.

Lemma load_synced_writable (t1 t2 t3 : Moment) (s : State) :
  synced s -> Forall writable_record (missions s) ->
  loadMissions t1 t2 t3 s = Ok (missions s) s.
Proof.
  intros H Hw. rewrite load_synced by done. f_equal.
  induction Hw as [|m l Hm _ IH]; [done|].
  cbn. by rewrite revive_serialize_record, IH.
Qed.

Lemma Mission_new_writable (t : Moment) (n d y st : string) :
  parseInt y <> NaN -> writable_record (Mission_new t n d y st).
Proof.
  intros Hy. repeat split; try done. cbn.
  destruct (parseInt_integer_or_NaN y) as [|[z ->]]; done.
Qed.

Lemma assign_writable (n d y st : string) (m : Mission) :
  parseInt y <> NaN -> writable_record m ->
  writable_record (assign n d y st m).
Proof.
  intros Hy (H1 & _ & _ & _ & _ & H6). repeat split; try done. cbn.
  destruct (parseInt_integer_or_NaN y) as [|[z ->]]; done.
Qed.

Lemma committed_synced (ms : list Mission) (s : State) : synced (committed ms s).
Proof. apply lookup_insert_eq. Qed.

Lemma openEditModal_run (i : value) (s : State) :
  page_ok s ->
  exists s' : State,
    openEditModal i s = Ok tt s' /\ page_ok s'
    /\ missions s' = missions s /\ localStorage s' = localStorage s.
Proof.
  intros (Hc & He & Hm). unfold openEditModal.
  unfold mbind at 1, M_bind at 1, get.
  destruct (find_mission i (missions s)); [|by exists s].
  destruct He as (E1 & E2 & E3 & E4). cbn [String.append] in E1, E2, E3, E4.
  unfold mbind at 1, M_bind at 1, modify.
  unfold mbind at 1, M_bind at 1. rewrite setTextContent_run by done.
  unfold mbind at 1, M_bind at 1. rewrite setTextContent_run
    by (cbn; by apply lookup_insert_is_Some'; right).
  unfold mbind at 1, M_bind at 1. rewrite setTextContent_run
    by (cbn; by do 2 (apply lookup_insert_is_Some'; right)).
  unfold mbind at 1, M_bind at 1. rewrite setTextContent_run
    by (cbn; by do 3 (apply lookup_insert_is_Some'; right)).
  unfold mbind, M_bind, get. cbn. destruct Hm as [d Hd]. rewrite Hd.
  eexists. split; [reflexivity|]. cbn. split; [|done].
  destruct Hc as (C1 & C2 & C3 & C4).
  repeat split; cbn; try (by do 4 (apply lookup_insert_is_Some'; right));
    by eexists.
Qed.

(** One action on a page that has its forms: it runs to its end, and it
    either leaves the collection and the stored copy as they were or stores
    the collection it leaves. *)
Lemma perform_run (a : action) (s : State) :
  page_ok s -> Forall writable_record (missions s) -> years_parse [a] ->
  exists s' : State,
    perform a s = Ok tt s' /\ page_ok s'
    /\ Forall writable_record (missions s')
    /\ (synced s'
        \/ missions s' = missions s /\ localStorage s' = localStorage s).
Proof.
  intros Hok Hw Hy. unfold years_parse in Hy. apply Forall_inv in Hy.
  destruct a as [t fd|i fd|i]; cbn [perform].
  - destruct Hok as (Hc & He & Hm).
    destruct (handleSubmit_run t fd s Hc)
      as (sv & (U1 & U2 & U3 & U4 & U5) & _ & Hp & E).
    unfold mbind, M_bind. rewrite E. eexists. split; [done|].
    assert (Hok' : page_ok sv)
      by (rewrite <- U5 in Hm; split; [by apply Hp|split; [by apply Hp|done]]).
    destruct (passes fd) eqn:Ep.
    + split; [done|]. split; [|left; apply committed_synced].
      cbn. apply Forall_app. split; [done|].
      apply Forall_singleton, Mission_new_writable. by apply Hy.
    + split; [done|]. rewrite U1. split; [done|]. by right.
  - destruct (openEditModal_run i s Hok) as (so & Eo & (Hc & He & Hm) & Mo & Lo).
    unfold mbind at 1, M_bind at 1. rewrite Eo.
    destruct (handleEditSubmit_run fd so He)
      as (sv & (U1 & U2 & U3 & U4 & U5) & _ & Hp & E).
    assert (Hok' : page_ok sv)
      by (rewrite <- U5 in Hm; split; [by apply Hp|split; [by apply Hp|done]]).
    unfold mbind, M_bind. rewrite E.
    destruct (passes fd) eqn:Ep.
    + rewrite updateMission_run.
      destruct (find_mission (editingMissionId so) (missions sv))
        as [[k m]|] eqn:Ef.
      * rewrite closeEditModal_run by (cbn; by rewrite U5).
        eexists. split; [done|]. cbn.
        destruct Hok' as (C1 & C2 & C3).
        split; [split; [exact C1|split; [exact C2|by eexists]]|].
        split; [|left; apply lookup_insert_eq].
        apply find_mission_Some in Ef as [Hk _].
        rewrite U1, Mo in Hk |- *.
        apply Forall_insert; [done|].
        apply assign_writable; [by apply Hy|].
        by eapply Forall_lookup_1.
      * rewrite closeEditModal_run by by destruct Hok' as (_ & _ & ?).
        eexists. split; [done|]. cbn.
        destruct Hok' as (C1 & C2 & C3).
        split; [split; [exact C1|split; [exact C2|by eexists]]|].
        rewrite U1, U2, Mo, Lo. split; [done|]. by right.
    + eexists. split; [done|]. split; [done|].
      rewrite U1, U2, Mo, Lo. split; [done|]. by right.
  - unfold onDeleteClick. rewrite deleteMission_run.
    eexists. split; [done|]. cbn. split; [done|].
    split; [|left; apply lookup_insert_eq].
    rewrite Forall_forall in Hw |- *.
    intros m [_ Hm]%list_elem_of_filter. by apply Hw.
Qed.

(** Any sequence of actions whose years [parseInt] reads: the stored copy,
    once there is one, loads back as the collection in memory. *)
Lemma roundtrip_parsed_years (acts : list action) (t1 t2 t3 : Moment) (s : State) :
  page_ok s -> Forall writable_record (missions s) -> years_parse acts ->
  exists s' : State,
    perform_all acts s = Ok tt s'
    /\ Forall writable_record (missions s')
    /\ (synced s'
        \/ missions s' = missions s /\ localStorage s' = localStorage s)
    /\ (synced s' -> loadMissions t1 t2 t3 s' = Ok (missions s') s').
Proof.
  revert s. induction acts as [|a acts IH]; intros s Hok Hw Hy.
  - exists s. split; [done|]. split; [done|]. split; [by right|].
    intros Hs. by apply load_synced_writable.
  - unfold years_parse in Hy. apply Forall_cons in Hy as [Ha Hy].
    destruct (perform_run a s Hok Hw) as (s1 & E1 & Hok1 & Hw1 & H1);
      [by apply Forall_singleton|].
    destruct (IH s1 Hok1 Hw1 Hy) as (s' & E & Hw' & H' & Hl).
    exists s'. cbn [perform_all]. unfold mbind, M_bind. rewrite E1.
    split; [done|]. split; [done|]. split; [|done].
    destruct H' as [Hs|[Hm Hst]]; [by left|].
    destruct H1 as [Hs1|[Hm1 Hst1]].
    + left. unfold synced in *. by rewrite Hst, Hm.
    + right. by rewrite Hm, Hst.
Qed.

(** C6, on the code.  On the page built at the epoch the create form is
    submitted with the year [.2e4]: it passes validation, the record appended
    has the year [NaN], the collection is stored, and what [loadMissions]
    reads back is not the collection in memory: the year of the last record
    comes back as [null]. *)
Theorem roundtrip_loses_year :
  exists (s' : State) (loaded : list Mission) (m m' : Mission),
    perform_all [Create epoch dotted_form] ready = Ok tt s'
    /\ synced s'
    /\ loadMissions epoch epoch epoch s' = Ok loaded s'
    /\ last (missions s') = Some m /\ year m = VNum NaN
    /\ last loaded = Some m' /\ year m' = VNull
    /\ loaded <> missions s'.
Proof.
  eexists _, _, _, _.
  split; [reflexivity|]. split; [reflexivity|]. split; [reflexivity|].
  split; [reflexivity|]. split; [reflexivity|].
  split; [reflexivity|]. split; [reflexivity|].
  intros H. apply (f_equal last) in H. by cbn in H.
Qed.

Lemma ready_built :
  MissionManager_new epoch epoch epoch (page None) = Ok tt ready.
Proof. reflexivity. Qed.

Lemma ready_errors_present :
  errors_present "" ready /\ errors_present "edit-" ready.
Proof. split; repeat split; by eexists. Qed.

End ScriptFacts.

(* ================================================================== *)
(** * More facts about the missions of js/script.js *)
(* ================================================================== *)

Module MissionFacts.
Import JS JSFacts Script ScriptFacts ScriptRest.

(** *** Creating, then deleting *)

Lemma new_id_eq (t : Moment) (n d y st : string) :
  strict_eq (id (Mission_new t n d y st)) (id (Mission_new t n d y st)) = true.
Proof. cbn. by apply bool_decide_eq_true. Qed.

Lemma filter_ne_id (i : value) (l : list Mission) :
  Forall (fun m => strict_eq (id m) i = false) l ->
  filter (fun m => strict_ne (id m) i) l = l.
Proof.
  intros H. induction H as [|m l Hm _ IH]; [done|].
  rewrite filter_cons_True by by apply strict_ne_spec. by rewrite IH.
Qed.

(** X1.  Deleting the record [createMission] has just appended, by its
    id, leaves the earlier records whose id differs from it, in memory and in
    storage: the collection as it was when the new id is fresh, and short of
    every record that shares the id otherwise. *)
Theorem create_then_delete (t : Moment) (n d y st : string) (s : State) :
  exists s1 s2 : State,
    createMission t n d y st s = Ok tt s1
    /\ deleteMission (id (Mission_new t n d y st)) s1 = Ok tt s2
    /\ missions s2
       = filter (fun m => strict_ne (id m) (id (Mission_new t n d y st)))
                (missions s)
    /\ synced s2
    /\ (Forall (fun m => strict_eq (id m) (id (Mission_new t n d y st)) = false)
               (missions s) ->
        missions s2 = missions s)
    /\ (forall m, m ∈ missions s ->
                  strict_eq (id m) (id (Mission_new t n d y st)) = true ->
                  m ∉ missions s2).
Proof.
  eexists _, _. split; [apply createMission_run|].
  split; [apply deleteMission_run|]. cbn [missions committed].
  assert (E : filter (fun m => strict_ne (id m) (id (Mission_new t n d y st)))
                (missions s ++ [Mission_new t n d y st])
              = filter (fun m => strict_ne (id m) (id (Mission_new t n d y st)))
                  (missions s)).
  { rewrite filter_app, filter_cons_False, filter_nil, app_nil_r; [done|].
    rewrite strict_ne_spec, new_id_eq. done. }
  split; [exact E|]. split; [apply committed_synced|]. split.
  - intros H. rewrite E. by apply filter_ne_id.
  - intros m _ Hm. rewrite E, list_elem_of_filter, strict_ne_spec.
    intros [H1 _]. congruence.
Qed.

(** *** Deleting *)

Lemma committed_twice (ms : list Mission) (s : State) :
  committed ms (committed ms s) = committed ms s.
Proof.
  unfold committed. cbn. rewrite insert_insert_eq.
  by destruct (listContainer s).
Qed.

Lemma filter_ne_twice (i : value) (l : list Mission) :
  filter (fun m => strict_ne (id m) i) (filter (fun m => strict_ne (id m) i) l)
  = filter (fun m => strict_ne (id m) i) l.
Proof.
  apply filter_ne_id, Forall_forall.
  intros m [Hm _]%list_elem_of_filter. by apply strict_ne_spec.
Qed.

(** X2.  Once [deleteMission(id)] has run no record has that id, however
    many had it: deleting it again changes nothing at all, and neither
    [updateMission] nor [openEditModal] with that id does anything. *)
Theorem delete_is_final (i : value) (n d y st : string) (s : State) :
  exists s' : State,
    deleteMission i s = Ok tt s'
    /\ find_mission i (missions s') = None
    /\ deleteMission i s' = Ok tt s'
    /\ updateMission i n d y st s' = Ok tt s'
    /\ openEditModal i s' = Ok tt s'.
Proof.
  eexists. split; [apply deleteMission_run|].
  assert (Hf : find_mission i
                 (missions (committed
                    (filter (fun m => strict_ne (id m) i) (missions s)) s))
               = None).
  { apply find_mission_None, Forall_forall. cbn.
    intros m [Hm _]%list_elem_of_filter. by apply strict_ne_spec. }
  split; [exact Hf|]. split; [|split].
  - rewrite deleteMission_run. cbn [missions committed].
    by rewrite filter_ne_twice, committed_twice.
  - by rewrite updateMission_run, Hf.
  - unfold openEditModal. run. cbn in Hf. by rewrite Hf.
Qed.

(** X3.  Two deletions give the same state in either order. *)
Theorem delete_commutes (i j : value) (s : State) :
  exists s1 s2 s' : State,
    deleteMission i s = Ok tt s1 /\ deleteMission j s1 = Ok tt s'
    /\ deleteMission j s = Ok tt s2 /\ deleteMission i s2 = Ok tt s'.
Proof.
  eexists _, _, _.
  split; [apply deleteMission_run|]. split; [apply deleteMission_run|].
  split; [apply deleteMission_run|]. rewrite deleteMission_run.
  f_equal. unfold committed. cbn.
  rewrite !insert_insert_eq.
  rewrite (list_filter_filter (fun m => strict_ne (id m) i)),
          (list_filter_filter (fun m => strict_ne (id m) j)).
  assert (E : filter (fun m : Mission => strict_ne (id m) i /\ strict_ne (id m) j)
                (missions s)
              = filter (fun m : Mission => strict_ne (id m) j /\ strict_ne (id m) i)
                  (missions s)).
  { apply list_filter_iff. intros m. tauto. }
  rewrite E. by destruct (listContainer s).
Qed.

(** *** The ids of the collection *)

Lemma assign_id_map (k : nat) (n d y st : string) (m : Mission)
  (ms : list Mission) :
  ms !! k = Some m ->
  map id (<[k := assign n d y st m]> ms) = map id ms.
Proof.
  intros Hk. apply list_eq. intros j.
  rewrite !list_lookup_fmap. destruct (decide (j = k)) as [->|Hne].
  - rewrite list_lookup_insert_eq by by eapply lookup_lt_Some. by rewrite Hk.
  - by rewrite list_lookup_insert_ne.
Qed.

(** X4.  The ids stay pairwise distinct: [updateMission] leaves the list of
    ids (and of creation dates) as it is, [deleteMission] only removes from
    it, and [createMission] adds the new id at its end, so that the ids stay
    distinct as long as the id drawn is not one already there. *)
Theorem ids_stay_distinct (t : Moment) (i : value) (n d y st : string)
  (s : State) :
  NoDup (map id (missions s)) ->
  id (Mission_new t n d y st) ∉ map id (missions s) ->
  exists sc su sd : State,
    createMission t n d y st s = Ok tt sc
    /\ updateMission i n d y st s = Ok tt su
    /\ deleteMission i s = Ok tt sd
    /\ map id (missions sc) = map id (missions s) ++ [id (Mission_new t n d y st)]
    /\ map id (missions su) = map id (missions s)
    /\ map createdAt (missions su) = map createdAt (missions s)
    /\ map id (missions sd) `sublist_of` map id (missions s)
    /\ NoDup (map id (missions sc))
    /\ NoDup (map id (missions su))
    /\ NoDup (map id (missions sd)).
Proof.
  intros Hnd Hfresh.
  assert (Hu : exists su, updateMission i n d y st s = Ok tt su
                 /\ map id (missions su) = map id (missions s)
                 /\ map createdAt (missions su) = map createdAt (missions s)).
  { rewrite updateMission_run.
    destruct (find_mission i (missions s)) as [[k m]|] eqn:E; [|by eexists].
    apply find_mission_Some in E as [Hk _].
    eexists. split; [done|]. cbn. split; [by apply assign_id_map|].
    apply list_eq. intros j. rewrite !list_lookup_fmap.
    destruct (decide (j = k)) as [->|Hne].
    - rewrite list_lookup_insert_eq by by eapply lookup_lt_Some. by rewrite Hk.
    - by rewrite list_lookup_insert_ne. }
  destruct Hu as (su & Eu & Hid & Hcr).
  assert (Hsub : map id (filter (fun m => strict_ne (id m) i) (missions s))
                 `sublist_of` map id (missions s))
    by (apply (fmap_sublist id); apply sublist_filter).
  eexists _, su, _. split; [apply createMission_run|]. split; [exact Eu|].
  split; [apply deleteMission_run|]. cbn [missions committed].
  rewrite map_app. cbn [map].
  split; [done|]. split; [done|]. split; [done|]. split; [done|].
  split; [|split].
  - apply NoDup_app. split; [done|]. split; [|apply NoDup_singleton].
    intros x Hx ->%list_elem_of_singleton. done.
  - by rewrite Hid.
  - by eapply sublist_NoDup.
Qed.

(** The theorem on the page built at the epoch, for a record created one
    millisecond later. *)
Lemma ids_stay_distinct_witness :
  (NoDup (map id (missions (committed [Mission_new epoch "a" "b" "2000" "active"] ready)))
   /\ id (Mission_new later "c" "d" "2001" "planned")
      ∉ map id (missions (committed [Mission_new epoch "a" "b" "2000" "active"] ready)))
  /\ exists sc : State,
       createMission later "c" "d" "2001" "planned"
         (committed [Mission_new epoch "a" "b" "2000" "active"] ready)
       = Ok tt sc
       /\ NoDup (map id (missions sc)).
Proof.
  assert (H1 : NoDup (map id (missions
             (committed [Mission_new epoch "a" "b" "2000" "active"] ready))))
    by (cbn; apply NoDup_singleton).
  assert (H2 : id (Mission_new later "c" "d" "2001" "planned")
      ∉ map id (missions (committed [Mission_new epoch "a" "b" "2000" "active"] ready))).
  { cbn. intros H%list_elem_of_singleton. by injection H. }
  split; [done|].
  destruct (ids_stay_distinct later VNull "c" "d" "2001" "planned" _ H1 H2)
    as (sc & su & sd & Ec & _ & _ & _ & _ & _ & _ & Hc & _).
  by exists sc.
Defined.

(** *** The edit modal *)

Lemma openEditModal_found (i : value) (s : State) (k : nat) (m : Mission) :
  page_ok s -> find_mission i (missions s) = Some (k, m) ->
  exists so : State,
    openEditModal i s = Ok tt so
    /\ page_ok so
    /\ editingMissionId so = i /\ modal so = Some "block"
    /\ missions so = missions s /\ localStorage so = localStorage s
    /\ listContainer so = listContainer s
    /\ Forall (fun e => textContent so !! e = Some "") edit_error_ids.
Proof.
  intros (Hc & He & Hm) Hf. unfold openEditModal.
  unfold mbind at 1, M_bind at 1, get. rewrite Hf.
  destruct He as (E1 & E2 & E3 & E4). cbn [String.append] in E1, E2, E3, E4.
  unfold mbind at 1, M_bind at 1, modify.
  unfold mbind at 1, M_bind at 1. rewrite setTextContent_run by done.
  unfold mbind at 1, M_bind at 1. rewrite setTextContent_run
    by (cbn; by apply lookup_insert_is_Some'; right).
  unfold mbind at 1, M_bind at 1. rewrite setTextContent_run
    by (cbn; by do 2 (apply lookup_insert_is_Some'; right)).
  unfold mbind at 1, M_bind at 1. rewrite setTextContent_run
    by (cbn; by do 3 (apply lookup_insert_is_Some'; right)).
  unfold mbind, M_bind, get. cbn. destruct Hm as [d Hd]. rewrite Hd.
  eexists. split; [reflexivity|]. cbn.
  destruct Hc as (C1 & C2 & C3 & C4).
  split.
  { repeat split; cbn; try (by do 4 (apply lookup_insert_is_Some'; right));
      by eexists. }
  do 5 (split; [done|]).
  repeat apply Forall_cons_2; try apply Forall_nil_2; by simplify_map_eq.
Qed.

(** X5.  The edit modal.  [openEditModal] on an id no record has does
    nothing.  On the id of a record it remembers the id, clears the four
    error elements and shows the modal.  A submission that passes validation
    then updates that record, hides the modal and forgets the id; one that
    fails leaves the modal shown on the same id and the collection as it
    was. *)
Theorem edit_flow (i : value) (formData : FormData.t) (s : State) :
  page_ok s ->
  match find_mission i (missions s) with
  | None => openEditModal i s = Ok tt s
  | Some (k, m) =>
      exists so s2 : State,
        openEditModal i s = Ok tt so
        /\ editingMissionId so = i /\ modal so = Some "block"
        /\ missions so = missions s
        /\ Forall (fun e => textContent so !! e = Some "") edit_error_ids
        /\ handleEditSubmit formData so = Ok false s2
        /\ if passes formData
           then modal s2 = Some "none" /\ editingMissionId s2 = VNull
                /\ missions s2
                   = <[k := assign (FormData.name formData)
                              (FormData.destination formData)
                              (FormData.year formData)
                              (FormData.status formData) m]> (missions s)
                /\ synced s2
           else modal s2 = Some "block" /\ editingMissionId s2 = i
                /\ missions s2 = missions s
                /\ localStorage s2 = localStorage s
  end.
Proof.
  intros Hok. destruct (find_mission i (missions s)) as [[k m]|] eqn:Hf.
  - destruct (openEditModal_found i s k m Hok Hf)
      as (so & Eo & (Hc & He & Hm) & Hi & Hb & Hms & Hls & _ & Hclear).
    destruct (handleEditSubmit_run formData so He)
      as (sv & (U1 & U2 & U3 & U4 & U5) & _ & _ & E).
    destruct (passes formData).
    + rewrite updateMission_run, Hi, U1, Hms, Hf in E.
      rewrite closeEditModal_run in E by (cbn; rewrite U5, Hb; by eexists).
      eexists so, _. do 5 (split; [done|]). split; [exact E|]. cbn.
      do 3 (split; [done|]). apply lookup_insert_eq.
    + exists so, sv. do 5 (split; [done|]). split; [exact E|].
      rewrite U5, U4, U1, U2. by repeat split.
  - unfold openEditModal. run. by rewrite Hf.
Qed.

(** The theorem on the page built at the epoch, which has the forms and
    the modal. *)
Lemma edit_flow_witness :
  page_ok ready
  /\ match find_mission (id (Mission_new epoch "" "" "" "")) (missions ready) with
     | None => False
     | Some (k, m) =>
         exists so : State,
           openEditModal (id (Mission_new epoch "" "" "" "")) ready = Ok tt so
           /\ modal so = Some "block"
     end.
Proof.
  assert (Hok : page_ok ready).
  { split; [|split]; [repeat split; by eexists..|by eexists]. }
  split; [exact Hok|].
  assert (H := edit_flow (id (Mission_new epoch "" "" "" "")) padded_form ready Hok).
  destruct (find_mission (id (Mission_new epoch "" "" "" "")) (missions ready))
    as [[k m]|]; [|discriminate H].
  destruct H as (so & s2 & Eo & _ & Hb & _). by exists so.
Defined.

(** *** Building the manager *)






(** *** What is stored *)

Lemma serialize_revive (j : jscalar) : serialize (revive j) = j.
Proof. by destruct j. Qed.

Lemma serialize_revive_record (r : jrecord) :
  serialize_record (revive_record r) = r.
Proof.
  destruct r. unfold serialize_record, revive_record. cbn.
  by rewrite !serialize_revive.
Qed.

(** X7.  Reloading never changes what is stored.  Whatever the collection,
    once it has been saved, loading it and saving what was loaded writes the
    same string again, and loading once more returns the same records: a
    number that is not finite is lost the first time and nothing is lost
    after that.  A stored array loads, in general, as the records it
    holds. *)
Theorem reload_is_stable (t1 t2 t3 : Moment) (s : State) :
  exists (s1 s2 : State) (loaded : list Mission),
    saveMissions s = Ok tt s1
    /\ loadMissions t1 t2 t3 s1 = Ok loaded s1
    /\ loaded = map (fun m => revive_record (serialize_record m)) (missions s)
    /\ saveMissions (set_missions loaded s1) = Ok tt s2
    /\ localStorage s2 = localStorage s1
    /\ loadMissions t1 t2 t3 s2 = Ok loaded s2
    /\ Forall writable_record loaded.
Proof.
  eexists _, _, _. split; [apply saveMissions_run|].
  assert (Hs : synced (set_localStorage
     (<[MISSIONS_STORAGE_KEY := JSON_stringify (missions s)]> (localStorage s)) s))
    by apply lookup_insert_eq.
  split; [by apply load_synced|]. split; [done|].
  split; [apply saveMissions_run|]. cbn.
  assert (E : JSON_stringify
                (map (fun m => revive_record (serialize_record m)) (missions s))
              = JSON_stringify (missions s)).
  { unfold JSON_stringify. f_equal. rewrite map_map.
    apply map_ext. intros m. apply serialize_revive_record. }
  rewrite E, insert_insert_eq. split; [done|]. split.
  - unfold loadMissions. run. rewrite lookup_insert_eq. cbn.
    by rewrite map_map.
  - apply Forall_forall. intros m Hm.
    apply list_elem_of_fmap in Hm as (m0 & -> & _).
    unfold writable_record, revive_record, serialize_record. cbn.
    repeat split;
      match goal with |- writable (revive (serialize ?v)) =>
        by destruct v as [|[]|] end.
Qed.

(** *** A year typed in digits *)

Lemma is_digit_code (c : ascii) : is_digit c = true <-> 48 <= code c <= 57.
Proof. unfold is_digit. lia. Qed.

Lemma digit_val_digit (c : ascii) :
  is_digit c = true -> digit_val 10 c = Some (code c - 48).
Proof.
  intros H%is_digit_code. unfold digit_val.
  replace ((48 <=? code c) && (code c <=? 57)) with true by lia.
  replace (code c - 48 <? 10) with true by lia. done.
Qed.

(** [read_digits] reads a string of digits to its end. *)
Lemma read_all_digits (s : string) (acc : Z) (k : nat) :
  all_digits s = true ->
  exists v : Z, read_digits 10 s acc k = (v, (k + String.length s)%nat, "").
Proof.
  revert acc k. induction s as [|c r IH]; intros acc k H; cbn in *.
  - exists acc. by rewrite Nat.add_0_r.
  - apply andb_true_iff in H as [Hc Hr]. rewrite digit_val_digit by done.
    destruct (IH (acc * 10 + (code c - 48)) (S k) Hr) as [v Hv].
    exists v. rewrite Hv. do 2 f_equal. lia.
Qed.

Lemma strip_digit_head (fwd : bool) (c : ascii) (r : list ascii) :
  is_digit c = true -> strip fwd (c :: r) = c :: r.
Proof.
  intros H%is_digit_code. cbn [strip].
  replace (ws1 (code c)) with false by (unfold ws1; lia).
  destruct r as [|c2 r2]; [done|].
  replace (if fwd then ws2 (code c) (code c2) else ws2 (code c2) (code c))
    with false by (destruct fwd; unfold ws2; lia).
  destruct r2 as [|c3 r3]; [done|].
  by replace (if fwd then ws3 (code c) (code c2) (code c3)
              else ws3 (code c3) (code c2) (code c))
    with false by (destruct fwd; unfold ws3; lia).
Qed.

Lemma all_digits_Forall (s : string) :
  all_digits s = true <->
  Forall (fun c => is_digit c = true) (list_ascii_of_string s).
Proof.
  induction s as [|c r IH]; cbn.
  - split; [by constructor|done].
  - rewrite andb_true_iff, IH, Forall_cons. done.
Qed.

Lemma trim_digits (s : string) :
  all_digits s = true -> trim s = s /\ trimStart s = s.
Proof.
  intros H%all_digits_Forall. unfold trim, trimStart.
  assert (E1 : strip true (list_ascii_of_string s) = list_ascii_of_string s).
  { destruct (list_ascii_of_string s) as [|c r]; [done|].
    apply strip_digit_head. by apply Forall_inv in H. }
  rewrite E1.
  assert (E2 : strip false (rev (list_ascii_of_string s))
               = rev (list_ascii_of_string s)).
  { assert (Hr : Forall (fun c => is_digit c = true)
                   (rev (list_ascii_of_string s))).
    { apply Forall_forall. intros c Hc%list_elem_of_In%in_rev.
      rewrite Forall_forall in H. by apply H, list_elem_of_In. }
    destruct (rev (list_ascii_of_string s)) as [|c r]; [done|].
    apply strip_digit_head. by apply Forall_inv in Hr. }
  rewrite E2, rev_involutive. by rewrite string_of_list_ascii_of_string.
Qed.

Lemma read_sign_digit (c : ascii) (r : string) :
  is_digit c = true -> read_sign (String c r) = (false, String c r).
Proof.
  intros H%is_digit_code.
  destruct c as [[] [] [] [] [] [] [] []]; try reflexivity;
    vm_compute in H; destruct H as [H1 H2]; by (elim H1 || elim H2).
Qed.

Lemma non_decimal_digits (s : string) :
  all_digits s = true -> non_decimal s = None.
Proof.
  destruct s as [|c [|p r]]; [done| |].
  - intros _. unfold non_decimal.
    by destruct c as [[] [] [] [] [] [] [] []].
  - cbn [all_digits]. intros (_ & (Hp%is_digit_code & _)%andb_true_iff)%andb_true_iff.
    unfold non_decimal.
    replace ((code p =? 120) || (code p =? 88)) with false by lia.
    replace ((code p =? 111) || (code p =? 79)) with false by lia.
    replace ((code p =? 98) || (code p =? 66)) with false by lia.
    by destruct c as [[] [] [] [] [] [] [] []].
Qed.

Lemma not_Infinity (c : ascii) (r : string) :
  is_digit c = true -> String.eqb (String c r) "Infinity" = false.
Proof.
  intros H%is_digit_code. apply String.eqb_neq. intros [= -> _].
  vm_compute in H. destruct H as [_ H]. by elim H.
Qed.

(** On a string of digits [Number] and [parseInt] agree. *)
Lemma digits_parse (s : string) :
  s <> "" -> all_digits s = true ->
  exists z : Z, Number s = ofZ z /\ parseInt s = ofZ z.
Proof.
  intros Hne Hd. destruct (trim_digits s Hd) as [Et Es].
  destruct (read_all_digits s 0 0 Hd) as [v Hv].
  destruct s as [|c r]; [done|]. clear Hne.
  assert (Hc : is_digit c = true) by (cbn in Hd; by apply andb_true_iff in Hd as []).
  exists v. split.
  - unfold Number. rewrite Et. cbn [falsy].
    rewrite non_decimal_digits, read_sign_digit, not_Infinity by done.
    unfold unsigned_decimal. rewrite Hv. cbn.
    unfold ofZ, scale10. cbn. do 2 f_equal. lia.
  - unfold parseInt. rewrite Es, read_sign_digit by done.
    assert (E : match String c r with
                | String "0" (String p r'') =>
                    if (code p =? 120) || (code p =? 88) then (16, r'')
                    else (10, String c r)
                | _ => (10, String c r)
                end = (10, String c r)).
    { destruct r as [|p r''].
      - by destruct c as [[] [] [] [] [] [] [] []].
      - cbn in Hd. apply andb_true_iff in Hd as (_ & (Hp%is_digit_code & _)%andb_true_iff).
        replace ((code p =? 120) || (code p =? 88)) with false by lia.
        by destruct c as [[] [] [] [] [] [] [] []]. }
    rewrite E, Hv. done.
Qed.

(** X8.  A year typed in decimal digits is stored as typed: [Number],
    which the check reads, and [parseInt], which the record gets, give the
    same integer, so that a submission that passes validation appends a
    record whose year is that integer and lies in [1957, 2100]. *)
Theorem digits_year_stored (t : Moment) (formData : FormData.t) (s : State) :
  errors_present "" s ->
  FormData.year formData <> "" ->
  all_digits (FormData.year formData) = true ->
  passes formData = true ->
  exists (s' : State) (m : Mission) (z : Z),
    handleSubmit t formData s = Ok false s'
    /\ last (missions s') = Some m
    /\ Number (FormData.year formData) = ofZ z
    /\ year m = VNum (ofZ z)
    /\ 1957 <= z <= 2100.
Proof.
  intros Hc Hne Hd Hp.
  destruct (digits_parse _ Hne Hd) as (z & HN & HP).
  destruct (handleSubmit_run t formData s Hc) as (sv & _ & _ & _ & E).
  rewrite Hp in E. eexists _, _, z. split; [exact E|].
  cbn [missions committed].
  split; [apply last_snoc|]. split; [done|].
  split; [unfold Mission_new; cbn [year]; by rewrite HP|].
  unfold passes in Hp. repeat (apply andb_true_iff in Hp as [Hp ?]).
  match goal with H : negb (year_missing _ || year_out_of_range _) = true |- _ =>
    apply negb_true_iff, orb_false_iff in H as [_ Hr] end.
  unfold year_out_of_range, gt in Hr. rewrite HN in Hr.
  apply orb_false_iff in Hr as [Hlo Hhi]. cbn in Hlo, Hhi.
  apply bool_decide_eq_false in Hlo, Hhi.
  apply Qcnot_lt_le in Hlo, Hhi. unfold Qcle in Hlo, Hhi. cbn in Hlo, Hhi.
  rewrite <- Zle_Qle in Hlo, Hhi. lia.
Qed.

(** The theorem on the page built at the epoch, for the year 2024. *)
Lemma digits_year_stored_witness :
  (errors_present "" ready /\ "2024" <> ""
   /\ all_digits "2024" = true
   /\ passes {| FormData.name := "Europa Clipper"; FormData.destination := "Europa";
                FormData.year := "2024"; FormData.status := "planned" |} = true)
  /\ exists (s' : State) (m : Mission),
       handleSubmit epoch
         {| FormData.name := "Europa Clipper"; FormData.destination := "Europa";
            FormData.year := "2024"; FormData.status := "planned" |} ready
       = Ok false s'
       /\ last (missions s') = Some m
       /\ year m = VNum (ofZ 2024).
Proof.
  assert (Hc : errors_present "" ready) by (repeat split; by eexists).
  split; [done|].
  destruct (digits_year_stored epoch
              {| FormData.name := "Europa Clipper"; FormData.destination := "Europa";
                 FormData.year := "2024"; FormData.status := "planned" |}
              ready Hc ltac:(done) eq_refl eq_refl)
    as (s' & m & z & E & Hl & HN & Hy & _).
  exists s', m. split; [done|]. split; [done|].
  rewrite Hy. f_equal. symmetry. exact HN.
Defined.

End MissionFacts.

(* ================================================================== *)
(** * Facts about the rest of js/script.js *)
(* ================================================================== *)

Module ScriptRestFacts.
Import JS JSFacts Script ScriptFacts Dom ScriptRest.

(** *** Class lists *)

(** X9.  Two clicks on a planet card give back its classes: [toggleActive]
    adds [active] when it is not there and removes it when it is, leaves every
    other class alone, and undoes itself. *)
Theorem toggle_twice (classList : gset string) :
  toggleActive (toggleActive classList) = classList
  /\ (ACTIVE_CLASS ∈ toggleActive classList <-> ACTIVE_CLASS ∉ classList)
  /\ (forall token, token <> ACTIVE_CLASS ->
        (token ∈ toggleActive classList <-> token ∈ classList)).
Proof.
  unfold toggleActive, classList_toggle.
  split; [|split].
  - destruct (decide (ACTIVE_CLASS ∈ classList)) as [Hin|Hout].
    + rewrite decide_False by set_solver.
      apply set_eq. intros x. destruct (decide (x = ACTIVE_CLASS)); set_solver.
    + rewrite decide_True by set_solver. set_solver.
  - destruct (decide (ACTIVE_CLASS ∈ classList)); set_solver.
  - intros token Hne. destruct (decide (ACTIVE_CLASS ∈ classList)); set_solver.
Qed.

(** *** The status helpers *)

(** X11.  For a status that is not the name of something every object
    inherits, [getStatusClass] returns one of the three classes,
    [status-planned] for every status other than [active] and [completed],
    and [getStatusText] returns the Spanish word for the three statuses and
    the status itself for any other.  For an inherited name ([constructor],
    [toString], ...) both return the inherited object, not a string. *)
Theorem status_helpers (status : string) :
  (status ∉ Object_prototype ->
   getStatusClass status
   = Str (if String.eqb status "active" then "status-active"
          else if String.eqb status "completed" then "status-completed"
          else "status-planned")
   /\ getStatusText status
      = Str (if String.eqb status "active" then "Activa"
             else if String.eqb status "completed" then "Completada"
             else if String.eqb status "planned" then "Planificada"
             else status))
  /\ (status ∈ Object_prototype ->
      getStatusClass status = Obj /\ getStatusText status = Obj).
Proof.
  unfold getStatusClass, getStatusText, get_property. cbn [own_property STATUS_CLASSES STATUS_TEXTS].
  split.
  - intros Hout. rewrite !(String.eqb_sym _ status).
    destruct (String.eqb status "active"); [done|].
    destruct (String.eqb status "completed"); [done|].
    destruct (String.eqb status "planned"); [done|].
    by rewrite bool_decide_eq_false_2.
  - intros Hin.
    assert (H : String.eqb "active" status = false
                /\ String.eqb "completed" status = false
                /\ String.eqb "planned" status = false).
    { unfold Object_prototype in Hin.
      repeat (apply elem_of_cons in Hin as [->|Hin]; [done|]).
      by apply elem_of_nil in Hin. }
    destruct H as (-> & -> & ->). by rewrite bool_decide_eq_true_2.
Qed.

(** The theorem at a status read from storage that the form does not
    offer, and at [constructor]. *)
Lemma status_helpers_witness :
(("cancelled" ∉ Object_prototype) /\ ("constructor" ∈ Object_prototype))
  /\ getStatusClass "cancelled" = Str "status-planned"
  /\ getStatusText "cancelled" = Str "cancelled"
  /\ getStatusClass "constructor" = Obj.
Proof.
  assert (H1 : "cancelled" ∉ Object_prototype).
  { unfold Object_prototype. intros H.
    repeat (apply elem_of_cons in H as [H|H]; [discriminate H|]).
    by apply elem_of_nil in H. }
  assert (H2 : "constructor" ∈ Object_prototype) by apply list_elem_of_here.
  split; [done|].
  destruct (status_helpers "cancelled") as [Ha _].
  destruct (status_helpers "constructor") as [_ Hb].
  destruct (Ha H1) as [Hc Ht]. destruct (Hb H2) as [Hk _].
  split; [exact Hc|]. split; [exact Ht|exact Hk].
Defined.

(** *** escapeHtml *)

Lemma code_inj (a b : ascii) : code a = code b -> a = b.
Proof.
  unfold code. intros H%(inj Z.of_N).
  by rewrite <- (ascii_N_embedding a), <- (ascii_N_embedding b), H.
Qed.

Lemma list_of_append (a b : string) :
  list_ascii_of_string (a +:+ b)
  = list_ascii_of_string a ++ list_ascii_of_string b.
Proof. induction a as [|c a IH]; [done|]. simpl. by f_equal. Qed.

(** The equations of [escapeHtml], by the first bytes of the text. *)
Lemma escapeHtml_cases (c : ascii) (r : string) :
  (code c = 38 /\ escapeHtml (String c r) = "&amp;" +:+ escapeHtml r)
  \/ (code c = 60 /\ escapeHtml (String c r) = "&lt;" +:+ escapeHtml r)
  \/ (code c = 62 /\ escapeHtml (String c r) = "&gt;" +:+ escapeHtml r)
  \/ (exists r2, r = String "160" r2 /\ c = "194"%char
                 /\ escapeHtml (String c r) = "&nbsp;" +:+ escapeHtml r2)
  \/ (code c <> 38 /\ code c <> 60 /\ code c <> 62
      /\ ~ (exists r2, c = "194"%char /\ r = String "160" r2)
      /\ escapeHtml (String c r) = String c (escapeHtml r)).
Proof.
  cbn [escapeHtml].
  destruct (code c =? 38) eqn:E1; [left; split; [lia|done]|].
  destruct (code c =? 60) eqn:E2; [right; left; split; [lia|done]|].
  destruct (code c =? 62) eqn:E3; [right; right; left; split; [lia|done]|].
  destruct r as [|c2 r2].
  { do 4 right. repeat split; try lia. by intros (r2 & _ & [=]). }
  destruct ((code c =? 194) && (code c2 =? 160)) eqn:E4.
  - do 3 right. left. exists r2.
    apply andb_true_iff in E4 as [Hc Hc2].
    apply Z.eqb_eq in Hc, Hc2.
    assert (c = "194"%char) as -> by (apply code_inj; exact Hc).
    assert (c2 = "160"%char) as -> by (apply code_inj; exact Hc2).
    done.
  - do 4 right. repeat split; try lia.
    intros (r2' & -> & [= -> _]). cbn in E4. discriminate E4.
Qed.

(** Induction on a string by its length. *)
Lemma string_length_ind (P : string -> Prop) :
  (forall s, (forall s', (String.length s' < String.length s)%nat -> P s') -> P s) ->
  forall s, P s.
Proof.
  intros H s. remember (String.length s) as n eqn:Hn.
  revert s Hn. induction n as [n IH] using lt_wf_ind. intros s ->.
  apply H. intros s' Hs'. by eapply IH.
Qed.

(** X12.  The markup [escapeHtml] returns holds no [<] and no [>],
    whatever the text; a text without [&], [<], [>] and without the byte
    194, which starts the no-break space in UTF-8, is returned as it is, the
    empty text included. *)
Theorem escapeHtml_no_markup (text : string) :
  Forall (fun c => code c <> 60 /\ code c <> 62)
         (list_ascii_of_string (escapeHtml text))
  /\ (Forall (fun c => code c <> 38 /\ code c <> 60 /\ code c <> 62
                       /\ code c <> 194)
             (list_ascii_of_string text) ->
      escapeHtml text = text).
Proof.
  split.
  - induction text as [text IH] using string_length_ind.
    destruct text as [|c r]; [by constructor|].
    assert (IHr : Forall (fun c => code c <> 60 /\ code c <> 62)
                    (list_ascii_of_string (escapeHtml r)))
      by (apply IH; cbn; lia).
    destruct (escapeHtml_cases c r)
      as [[_ ->]|[[_ ->]|[[_ ->]|[(r2 & -> & -> & ->)|(_ & H2 & H3 & _ & ->)]]]].
    + rewrite list_of_append. apply Forall_app. split; [|done].
      cbn. repeat constructor; by cbn.
    + rewrite list_of_append. apply Forall_app. split; [|done].
      cbn. repeat constructor; by cbn.
    + rewrite list_of_append. apply Forall_app. split; [|done].
      cbn. repeat constructor; by cbn.
    + rewrite list_of_append. apply Forall_app. split.
      * cbn. repeat constructor; by cbn.
      * apply IH. cbn. lia.
    + cbn. by constructor.
  - induction text as [|c r IH]; [done|]. cbn [list_ascii_of_string].
    intros [(H1 & H2 & H3 & H4) Hr]%Forall_cons.
    destruct (escapeHtml_cases c r)
      as [[? _]|[[? _]|[[? _]|[(r2 & _ & -> & _)|(_ & _ & _ & _ & ->)]]]];
      try done.
    by rewrite IH.
Qed.

(** X13.  [escapeHtml] loses nothing: writing [&], [<], [>] and the
    no-break space back for the four entities gives the text it was given,
    so two different texts never get the same markup. *)
Theorem escapeHtml_injective (text text' : string) :
  unescapeHtml (escapeHtml text) = text
  /\ (escapeHtml text = escapeHtml text' -> text = text').
Proof.
  assert (Hback : forall s, unescapeHtml (escapeHtml s) = s).
  { intros s. induction s as [s IH] using string_length_ind.
    destruct s as [|c r]; [done|].
    assert (IHr : unescapeHtml (escapeHtml r) = r) by (apply IH; cbn; lia).
    destruct (escapeHtml_cases c r)
      as [[Hc ->]|[[Hc ->]|[[Hc ->]|[(r2 & -> & -> & ->)|(H1 & _ & _ & _ & ->)]]]].
    - change (unescapeHtml ("&amp;" +:+ escapeHtml r))
        with (String "&" (unescapeHtml (escapeHtml r))).
      rewrite IHr. f_equal. by apply code_inj.
    - change (unescapeHtml ("&lt;" +:+ escapeHtml r))
        with (String "<" (unescapeHtml (escapeHtml r))).
      rewrite IHr. f_equal. by apply code_inj.
    - change (unescapeHtml ("&gt;" +:+ escapeHtml r))
        with (String ">" (unescapeHtml (escapeHtml r))).
      rewrite IHr. f_equal. by apply code_inj.
    - change (unescapeHtml ("&nbsp;" +:+ escapeHtml r2))
        with (String "194" (String "160" (unescapeHtml (escapeHtml r2)))).
      by rewrite IH by (cbn; lia).
    - cbn [unescapeHtml]. replace (code c =? 38) with false by lia.
      by rewrite IHr. }
  split; [apply Hback|].
  intros H. by rewrite <- (Hback text), <- (Hback text'), H.
Qed.

(** *** Start-up *)



End ScriptRestFacts.

(* ================================================================== *)
(** * Facts about the observers of both scripts *)
(* ================================================================== *)

Module ObserverFacts.
Import Dom.

Lemma classList_add_lookup (token : string) (el el' : nat) (dom : classes) :
  classList_add token el dom !! el'
  = if decide (el = el') then (fun cs => cs ∪ {[ token ]}) <$> dom !! el'
    else dom !! el'.
Proof.
  unfold classList_add. destruct (decide (el = el')) as [->|Hne].
  - by rewrite lookup_alter_eq.
  - by rewrite lookup_alter_ne.
Qed.

(** What the observer callback leaves of an element. *)
Lemma reveal_lookup (token : string) (entries : list (nat * bool))
  (dom : classes) (el : nat) :
  reveal token entries dom !! el
  = (fun cs => if bool_decide ((el, true) ∈ entries) then cs ∪ {[ token ]} else cs)
      <$> dom !! el.
Proof.
  unfold reveal. revert dom. induction entries as [|[e b] entries IH]; intros dom.
  - cbn. destruct (dom !! el); [|done]. cbn.
    by rewrite bool_decide_eq_false_2 by apply not_elem_of_nil.
  - cbn [foldl]. rewrite IH. destruct b; cbn [fst snd].
    + rewrite classList_add_lookup. destruct (decide (e = el)) as [->|Hne].
      * destruct (dom !! el) as [cs|]; [|done]. cbn. f_equal.
        rewrite (bool_decide_eq_true_2 ((el, true) ∈ (el, true) :: entries))
          by apply list_elem_of_here.
        case_bool_decide; set_solver.
      * destruct (dom !! el) as [cs|]; [|done]. cbn. f_equal.
        assert (Hiff : (el, true) ∈ (e, true) :: entries <-> (el, true) ∈ entries).
        { rewrite elem_of_cons. split; [intros [[= ->]|]; done|by right]. }
        by rewrite (bool_decide_ext _ _ Hiff).
    + destruct (dom !! el) as [cs|]; [|done]. cbn. f_equal.
      assert (Hiff : (el, true) ∈ (e, false) :: entries <-> (el, true) ∈ entries).
      { rewrite elem_of_cons. split; [intros [[=]|]; done|by right]. }
      by rewrite (bool_decide_ext _ _ Hiff).
Qed.

Lemma sections_grow (el : nat) (l : list nat) (d : classes) (c0 : gset string) :
  d !! el = Some c0 ->
  exists c1,
    foldl (fun d section => classList_add "section-visible" section d) d l !! el
    = Some c1 /\ c0 ⊆ c1.
Proof.
  revert d c0. induction l as [|y l IHl]; intros d c0 Hd; [by exists c0|].
  cbn [foldl].
  destruct (IHl (classList_add "section-visible" y d)
              (if decide (y = el) then c0 ∪ {["section-visible"]} else c0))
    as (c1 & E1 & H1).
  { rewrite classList_add_lookup, Hd. by destruct (decide (y = el)). }
  exists c1. split; [done|]. destruct (decide (y = el)); set_solver.
Qed.

(** X10.  The observer callbacks only ever add their class.  After
    [ScrollAnimator]'s callback an element has the classes it had, and
    [animate-in] besides exactly when one of the entries for it is
    intersecting; the same holds of [SectionObserver]'s callback with
    [section-visible].  Nothing is removed when an element stops
    intersecting, and the callback run again on the same entries changes
    nothing.  Without [IntersectionObserver], [SectionObserver.init] gives
    every section [section-visible] at once; with it, [init] itself changes
    no class. *)
Theorem observers_only_add (entries : list (nat * bool)) (dom : classes)
  (el : nat) :
  ScriptRest.ScrollAnimator_callback entries dom !! el
  = (fun cs => if bool_decide ((el, true) ∈ entries)
               then cs ∪ {[ "animate-in" ]} else cs) <$> dom !! el
  /\ ParallaxRest.SectionObserver_callback entries dom !! el
     = (fun cs => if bool_decide ((el, true) ∈ entries)
                  then cs ∪ {[ "section-visible" ]} else cs) <$> dom !! el
  /\ ScriptRest.ScrollAnimator_callback entries
       (ScriptRest.ScrollAnimator_callback entries dom)
     = ScriptRest.ScrollAnimator_callback entries dom
  /\ ParallaxRest.SectionObserver_callback entries
       (ParallaxRest.SectionObserver_callback entries dom)
     = ParallaxRest.SectionObserver_callback entries dom
  /\ (forall (sections : list nat) cs,
        el ∈ sections -> dom !! el = Some cs ->
        exists cs',
          ParallaxRest.SectionObserver_init false sections dom !! el = Some cs'
          /\ "section-visible" ∈ cs' /\ cs ⊆ cs')
  /\ (forall sections : list nat,
        ParallaxRest.SectionObserver_init true sections dom = dom).
Proof.
  assert (Hidem : forall token,
            reveal token entries (reveal token entries dom)
            = reveal token entries dom).
  { intros token. apply map_eq. intros e. rewrite !reveal_lookup.
    destruct (dom !! e) as [cs|]; [|done]. cbn. f_equal.
    case_bool_decide; set_solver. }
  split; [apply reveal_lookup|]. split; [apply reveal_lookup|].
  split; [apply Hidem|]. split; [apply Hidem|]. split; [|done].
  unfold ParallaxRest.SectionObserver_init. clear Hidem. intros sections.
  revert dom. induction sections as [|x sections IH]; intros dom cs Hin Hcs.
  { by apply elem_of_nil in Hin. }
  cbn [foldl]. destruct (decide (x = el)) as [->|Hne].
  - destruct (sections_grow el sections (classList_add "section-visible" el dom)
                (cs ∪ {["section-visible"]})) as (c1 & E1 & H1).
    { rewrite classList_add_lookup, Hcs. by rewrite decide_True. }
    exists c1. split; [done|]. set_solver.
  - assert (Hin' : el ∈ sections)
      by (apply elem_of_cons in Hin as [->|]; done).
    assert (Hcs' : classList_add "section-visible" x dom !! el = Some cs)
      by (rewrite classList_add_lookup, Hcs; by rewrite decide_False).
    by apply IH.
Qed.

End ObserverFacts.

(* ================================================================== *)
(** * Facts about the rest of js/parallax.js *)
(* ================================================================== *)

Module ParallaxRestFacts.
Import JS JSFacts Parallax ParallaxFacts Dom ParallaxRest.

(** Goals on [Qc] restated on the rationals below them, through every
    layer of operations. *)
Ltac to_Q :=
  repeat (progress (unfold Qcle, Qclt, Qcplus, Qcmult, Qcminus, Qcopp, Qcdiv,
                      Qcinv, Qcabs, Q2Qc, Qc_of_Z in *; cbn [this] in * ));
  repeat (rewrite ?Qred_correct in * ).

(** *** Smoothing towards a target *)

Lemma smooth_fin (x t : Qc) :
  smooth (Fin x) (Fin t) = Fin (t + ratio * (x - t)).
Proof.
  cbn. f_equal. apply Qc_is_canon. unfold Qcminus. qc2q.
  change (this ratio) with 0.9%Q. ring.
Qed.




(** *** The pointer offset stays in range *)

Lemma smooth_range (a t : num) :
  unit_range a -> unit_range t -> unit_range (smooth a t).
Proof.
  destruct a as [| | |x], t as [| | |t]; try done.
  intros [H1 H2] [H3 H4]. rewrite smooth_fin. cbn.
  unfold Qcminus. qc2q. change (this ratio) with 0.9%Q. split; lra.
Qed.

Lemma pointer_target_range (x w : Qc) :
  (0 <= x)%Qc -> (x <= w)%Qc -> (0 < w)%Qc ->
  unit_range (mul (sub (div (Fin x) (Fin w)) (ofQ 0.5)) (ofZ 2)).
Proof.
  intros H0 H1 Hw. cbn.
  assert (Hz : is_zero w = false).
  { apply bool_decide_eq_false. intros ->. by apply Qclt_not_eq in Hw. }
  rewrite Hz. cbn. to_Q.
  assert (Hd0 : (0 <= this x / this w)%Q)
    by (apply Qle_shift_div_l; [done|lra]).
  assert (Hd1 : (this x / this w <= 1)%Q)
    by (apply Qle_shift_div_r; [done|lra]).
  unfold Qdiv in Hd0, Hd1. change (inject_Z 2) with 2%Q. split; lra.
Qed.

Lemma update_in_range (c : State) : in_range c -> in_range (update c).
Proof.
  intros (H1 & H2 & H3 & H4). unfold in_range.
  destruct (update_mouse c) as [-> ->].
  destruct (update_frame c) as (-> & -> & _).
  repeat split; try done; by apply smooth_range.
Qed.

Lemma handle_in_range (raf : bool) (c : State) (e : event) :
  inside e -> in_range c -> in_range (handle raf c e).
Proof.
  intros He Hc. destruct e as [|x y w h|a b|h d]; cbn [handle].
  - by apply update_in_range.
  - destruct x as [| | |x], y as [| | |y], w as [| | |w], h as [| | |h];
      try done.
    destruct He as (X0 & X1 & XW & Y0 & Y1 & YH).
    destruct Hc as (H1 & H2 & _ & _).
    unfold in_range, onMouseMove. cbn [mouseX mouseY targetMouseX targetMouseY set_target].
    split; [done|]. split; [done|].
    split; by apply pointer_target_range.
  - unfold scroll_listener. destruct raf; [done|]. by apply update_in_range.
  - unfold resize_listener. by apply update_in_range.
Qed.

(** X16.  However cycles, scrolls, resizes and moves of a pointer that is
    over the window follow one another, the smoothed offset and its target
    stay within [-1, 1] on both axes; so the pointer never moves the planet
    of index [i] by more than [10 + 5 i] pixels on either axis. *)
Theorem pointer_offset_bounded (raf : bool) (events : list event) (c : State)
  (index : nat) (planet : Planet) :
  Forall inside events ->
  unit_range (mouseX c) -> unit_range (mouseY c) ->
  unit_range (targetMouseX c) -> unit_range (targetMouseY c) ->
  let c' := run raf events c in
  unit_range (mouseX c') /\ unit_range (mouseY c')
  /\ unit_range (targetMouseX c') /\ unit_range (targetMouseY c')
  /\ exists qx qy : Qc,
       translateX (planet_transform c' index planet) = Fin qx
       /\ translateY (planet_transform c' index planet)
          = add (Fin qy) (parallaxY c' planet)
       /\ (- Qc_of_Z (10 + 5 * Z.of_nat index) <= qx)%Qc
       /\ (qx <= Qc_of_Z (10 + 5 * Z.of_nat index))%Qc
       /\ (- Qc_of_Z (10 + 5 * Z.of_nat index) <= qy)%Qc
       /\ (qy <= Qc_of_Z (10 + 5 * Z.of_nat index))%Qc.
Proof.
  intros Hev HX HY HTX HTY c'.
  assert (Hin : in_range c').
  { subst c'. unfold run.
    assert (H0 : in_range c) by done. clear HX HY HTX HTY.
    revert c H0. induction Hev as [|e es He _ IH]; intros c H0; [done|].
    cbn [foldl]. apply IH. by apply handle_in_range. }
  destruct Hin as (H1 & H2 & H3 & H4).
  do 4 (split; [done|]).
  unfold planet_transform. cbn [translateX translateY].
  destruct (mouseX c') as [| | |mx]; try done.
  destruct (mouseY c') as [| | |my]; try done.
  destruct H1 as [A1 A2], H2 as [B1 B2].
  assert (Hi : (0 <= inject_Z (Z.of_nat index))%Q)
    by (change 0%Q with (inject_Z 0); rewrite <- Zle_Qle; lia).
  eexists _, _. split; [reflexivity|]. split; [reflexivity|].
  qc2q. rewrite !inject_Z_plus, !inject_Z_mult.
  change (inject_Z 10) with 10%Q. change (inject_Z 5) with 5%Q.
  revert Hi A1 A2 B1 B2.
  generalize (inject_Z (Z.of_nat index)) (this mx) (this my).
  intros k x y Hk A1 A2 B1 B2.
  repeat split; nra.
Qed.

(** The theorem from a controller at rest, for a pointer at a quarter of
    the window followed by a cycle and a scroll. *)
Lemma pointer_offset_bounded_witness :
  (Forall inside [Pointer (ofZ 50) (ofZ 25) (ofZ 200) (ofZ 100); Cycle;
                  Scrolled (ofZ 10) (ofZ 10)]
   /\ unit_range (ofZ 0))
  /\ unit_range
       (mouseX (run true
                  [Pointer (ofZ 50) (ofZ 25) (ofZ 200) (ofZ 100); Cycle;
                   Scrolled (ofZ 10) (ofZ 10)]
                  (ParallaxController_new true (ofZ 0) (ofZ 0) (ofZ 100)
                     (ofZ 300) [] None))).
Proof.
  assert (H0 : unit_range (ofZ 0)) by (split; vm_compute; discriminate).
  assert (He : Forall inside [Pointer (ofZ 50) (ofZ 25) (ofZ 200) (ofZ 100);
                              Cycle; Scrolled (ofZ 10) (ofZ 10)]).
  { repeat constructor; vm_compute; (discriminate || reflexivity). }
  split; [done|].
  exact (proj1 (pointer_offset_bounded true _
                  (ParallaxController_new true (ofZ 0) (ofZ 0) (ofZ 100)
                     (ofZ 300) [] None) 0
                  {| rect_top := ofZ 0; rect_height := ofZ 0; transform := None |}
                  He H0 H0 H0 H0)).
Defined.

(** *** A pointer offset that is not finite *)

Lemma smooth_not_finite (a t : num) : not_finite a -> smooth a t = NaN.
Proof. by destruct a, t. Qed.

Lemma smooth_to_not_finite (a t : num) :
  not_finite t -> not_finite (smooth a t).
Proof. by destruct a, t. Qed.

Lemma handle_NaN (raf : bool) (c : State) (e : event) :
  mouseX c = NaN -> mouseX (handle raf c e) = NaN.
Proof.
  intros H. destruct e as [|x y w h|a b|h d]; cbn [handle].
  - destruct (update_mouse c) as [-> _]. by rewrite H.
  - done.
  - unfold scroll_listener. destruct raf; [done|].
    destruct (update_mouse (set_scrollY (or_num a b) c)) as [-> _].
    cbn. by rewrite H.
  - unfold resize_listener.
    destruct (update_mouse (set_heights h d c)) as [-> _]. cbn. by rewrite H.
Qed.

(** X17.  A window without width breaks the pointer effect for good.  A
    pointer move in a window whose [innerWidth] is 0 leaves a horizontal
    target that is not finite; two cycles later the smoothed offset is [NaN];
    and once it is [NaN] no cycle, scroll, resize or pointer move, wherever
    the pointer is, makes it a number again. *)
Theorem zero_width_breaks_pointer (raf : bool) (x : Qc) (y h : num)
  (events : list event) (c : State) :
  let c1 := onMouseMove (Fin x) y (ofZ 0) h c in
  not_finite (targetMouseX c1)
  /\ mouseX (update (update c1)) = NaN
  /\ mouseX (run raf events (update (update c1))) = NaN
  /\ forall i p, translateX (planet_transform
                                (run raf events (update (update c1))) i p) = NaN.
Proof.
  intros c1.
  assert (Ht : not_finite (targetMouseX c1)).
  { subst c1. unfold onMouseMove. cbn.
    destruct (is_zero x); [done|]. by destruct (negative x). }
  assert (H2 : mouseX (update (update c1)) = NaN).
  { destruct (update_mouse (update c1)) as [-> _].
    destruct (update_mouse c1) as [-> _].
    destruct (update_frame c1) as (-> & _).
    apply smooth_not_finite. by apply smooth_to_not_finite. }
  assert (H3 : forall c0, mouseX c0 = NaN -> mouseX (run raf events c0) = NaN).
  { unfold run. induction events as [|e es IH]; intros c0 H0; [done|].
    cbn [foldl]. by apply IH, handle_NaN. }
  split; [done|]. split; [done|]. split; [by apply H3|].
  intros i p. unfold planet_transform. cbn [translateX].
  by rewrite (H3 _ H2).
Qed.

(** *** The progress bar *)

(** X18.  When the page has a progress bar and the document is taller than
    the window, the width a cycle assigns grows with the scroll offset from 0%
    at the top to 100% at the bottom and stays at 100% beyond.  When the
    document is exactly as tall as the window, the width assigned at the top
    is [NaN] percent. *)
Theorem progress_range (c : State) (w : option num) (y win doc : Qc) :
  (0 <= y)%Qc -> (win < doc)%Qc ->
  let at_ y' := {| scrollY := Fin y'; windowHeight := Fin win;
                   documentHeight := Fin doc; planets := planets c;
                   mouseX := mouseX c; mouseY := mouseY c;
                   targetMouseX := targetMouseX c;
                   targetMouseY := targetMouseY c;
                   progressBar := Some w |} in
  (exists p : Qc,
     progressBar (update (at_ y)) = Some (Some (Fin p))
     /\ (0 <= p)%Qc /\ (p <= Qc_of_Z 100)%Qc
     /\ ((y <= doc - win)%Qc -> p = (y / (doc - win) * Qc_of_Z 100)%Qc)
     /\ ((doc - win <= y)%Qc -> p = Qc_of_Z 100)
     /\ (y = 0%Qc -> p = Qc_of_Z 0)
     /\ forall y' p' : Qc,
          (y <= y')%Qc ->
          progressBar (update (at_ y')) = Some (Some (Fin p')) ->
          (p <= p')%Qc)
  /\ progressBar (update
       {| scrollY := ofZ 0; windowHeight := Fin win; documentHeight := Fin win;
          planets := planets c; mouseX := mouseX c; mouseY := mouseY c;
          targetMouseX := targetMouseX c; targetMouseY := targetMouseY c;
          progressBar := Some w |})
     = Some (Some NaN).
Proof.
  intros Hy Hd at_.
  assert (Hz : is_zero (doc + - win) = false).
  { apply bool_decide_eq_false. intros E.
    assert (doc = win) as -> by (rewrite <- (Qcplus_0_l win), <- E; ring).
    unfold Qclt in Hd. lra. }
  assert (Hpos : (0 < this doc - this win)%Q) by (to_Q; lra).
  assert (Hw : forall y' : Qc,
    progressBar (update (at_ y'))
    = Some (Some (Math_min (Fin (y' / (doc + - win) * Qc_of_Z 100)) (ofZ 100)))).
  { intros y'. unfold update, updateProgress, updatePlanets. cbn.
    by rewrite Hz. }
  assert (Hmin : forall y' : Qc, (0 <= y')%Qc ->
    exists p : Qc,
      Math_min (Fin (y' / (doc + - win) * Qc_of_Z 100)) (ofZ 100) = Fin p
      /\ (0 <= p)%Qc /\ (p <= Qc_of_Z 100)%Qc
      /\ ((y' <= doc - win)%Qc -> p = (y' / (doc - win) * Qc_of_Z 100)%Qc)
      /\ ((doc - win <= y')%Qc -> p = Qc_of_Z 100)
      /\ (this p == Qmin (this y' / (this doc - this win) * 100) 100)%Q).
  { intros y' Hy'. unfold Math_min, ofZ. cbn [lt].
    assert (Hq : (this (y' / (doc + - win) * Qc_of_Z 100)%Qc
                  == this y' / (this doc - this win) * 100)%Q).
    { to_Q. change (inject_Z 100) with 100%Q. unfold Qdiv, Qminus. reflexivity. }
    assert (Hnn : (0 <= this y' / (this doc - this win))%Q).
    { apply Qle_shift_div_l; [done|]. to_Q. lra. }
    case_bool_decide as Hlt.
    - exists (Qc_of_Z 100). split; [done|].
      assert (Hlt' : (100 < this y' / (this doc - this win) * 100)%Q)
        by (rewrite <- Hq; exact Hlt).
      assert (Hgt : (this doc - this win < this y')%Q).
      { apply Qnot_le_lt. intros Hle.
        assert ((this y' / (this doc - this win) <= 1)%Q)
          by (apply Qle_shift_div_r; [done|lra]).
        lra. }
      split; [done|]. split; [apply Qcle_refl|]. split; [|split; [done|]].
      + intros Hle. exfalso. to_Q. lra.
      + change (100 == Qmin (this y' / (this doc - this win) * 100) 100)%Q.
        rewrite Q.min_r; [reflexivity|lra].
    - eexists. split; [reflexivity|].
      assert (Hle' : (this y' / (this doc - this win) * 100 <= 100)%Q).
      { apply Qnot_lt_le. intros H. apply Hlt. unfold Qclt. cbn [this].
        by rewrite Hq. }
      split; [unfold Qcle; rewrite Hq;
              change (0 <= this y' / (this doc - this win) * 100)%Q; lra|].
      split; [unfold Qcle; rewrite Hq;
              change (this y' / (this doc - this win) * 100 <= 100)%Q; lra|].
      split; [|split].
      + intros _. reflexivity.
      + intros Hge. apply Qc_is_canon. rewrite Hq.
        change (this y' / (this doc - this win) * 100 == 100)%Q.
        assert ((1 <= this y' / (this doc - this win))%Q).
        { apply Qle_shift_div_l; [done|]. to_Q. lra. }
        lra.
      + rewrite Hq. rewrite Q.min_l; [reflexivity|lra]. }
  split.
  - destruct (Hmin y Hy) as (p & Ep & P0 & P1 & Pl & Ph & Pq).
    exists p. rewrite Hw, Ep. split; [done|].
    do 4 (split; [done|]). split.
    + intros ->. apply Qc_is_canon. rewrite Pq.
      change (Qmin (0 / (this doc - this win) * 100) 100 == 0)%Q.
      assert (E0 : (0 / (this doc - this win) * 100 == 0)%Q)
        by (unfold Qdiv; ring).
      rewrite E0. by rewrite Q.min_l.
    + intros y' p' Hyy'. rewrite Hw.
      destruct (Hmin y') as (p2 & Ep2 & _ & _ & _ & _ & Pq2);
        [exact (Qcle_trans _ _ _ Hy Hyy')|].
      rewrite Ep2. intros E'. injection E' as <-.
      unfold Qcle. rewrite Pq, Pq2.
      apply Q.min_le_compat_r.
      apply Qmult_le_compat_r; [|lra].
      unfold Qdiv. apply Qmult_le_compat_r; [exact Hyy'|].
      apply Qlt_le_weak, Qinv_lt_0_compat. exact Hpos.
  - unfold update, updateProgress, updatePlanets. cbn.
    assert (Hz0 : is_zero (win + - win) = true).
    { apply bool_decide_eq_true. ring. }
    by rewrite Hz0.
Qed.

(** The theorem for a document of height 3000 in a window of height 1000,
    scrolled by 500. *)
Lemma progress_range_witness :
  ((0 <= Qc_of_Z 500)%Qc /\ (Qc_of_Z 1000 < Qc_of_Z 3000)%Qc)
  /\ exists p : Qc,
       progressBar (update
         {| scrollY := ofZ 500; windowHeight := ofZ 1000;
            documentHeight := ofZ 3000; planets := [];
            mouseX := ofZ 0; mouseY := ofZ 0;
            targetMouseX := ofZ 0; targetMouseY := ofZ 0;
            progressBar := Some None |})
       = Some (Some (Fin p))
       /\ (p <= Qc_of_Z 100)%Qc.
Proof.
  assert (H1 : (0 <= Qc_of_Z 500)%Qc) by (vm_compute; discriminate).
  assert (H2 : (Qc_of_Z 1000 < Qc_of_Z 3000)%Qc) by reflexivity.
  split; [done|].
  destruct (progress_range
              {| scrollY := ofZ 0; windowHeight := ofZ 0;
                 documentHeight := ofZ 0; planets := [];
                 mouseX := ofZ 0; mouseY := ofZ 0;
                 targetMouseX := ofZ 0; targetMouseY := ofZ 0;
                 progressBar := None |}
              None (Qc_of_Z 500) (Qc_of_Z 1000) (Qc_of_Z 3000) H1 H2)
    as [(p & E & _ & Hp & _) _].
  by exists p.
Defined.

(** *** At rest *)













(** *** initParallax *)

Lemma length_stars_from (random : nat -> Qc) (k n : nat) :
  length (stars_from random k n) = n.
Proof. revert k. induction n as [|n IH]; intros k; cbn; [done|]. by rewrite IH. Qed.

Lemma createDynamicStars_appends (innerWidth : num) (random : nat -> Qc)
  (k : nat) (containers : list (list Star)) :
  Forall2 (fun old new => exists stars,
             new = old ++ stars /\ length stars = starsCount innerWidth)
          containers (createDynamicStars innerWidth random k containers).
Proof.
  revert k. induction containers as [|x l IH]; intros k; cbn; constructor.
  - eexists. split; [reflexivity|]. apply length_stars_from.
  - apply IH.
Qed.

(** X21.  On a page with at least one parallax section, [initParallax]
    returns with a progress bar present and a width already assigned to it,
    whether or not the page had one; every [.stars] container keeps its
    children and gains as many stars as the width of the window asks for;
    every planet has a transform.  On a page with no parallax section it
    does nothing. *)
Theorem initParallax_effects (raf io : bool)
  (pageYOffset scrollTop innerWidth innerHeight scrollHeight : num)
  (random : nat -> Qc) (ps : list Planet) (sections : list nat)
  (bar : option (option num)) (containers : list (list Star)) (dom : classes) :
  initParallax raf io pageYOffset scrollTop innerWidth innerHeight scrollHeight
    random ps [] bar containers dom = None
  /\ (sections <> [] ->
      exists e,
        initParallax raf io pageYOffset scrollTop innerWidth innerHeight
          scrollHeight random ps sections bar containers dom = Some e
        /\ (exists w, progressBar (controller e) = Some (Some w))
        /\ Forall2 (fun old new => exists stars,
                      new = old ++ stars
                      /\ length stars = starsCount innerWidth)
                   containers (starsContainers e)
        /\ length (planets (controller e)) = length ps
        /\ Forall (fun p => is_Some (transform p)) (planets (controller e))).
Proof.
  split; [done|]. intros Hs. destruct sections as [|x l]; [done|].
  eexists. split; [reflexivity|]. cbn [controller starsContainers].
  set (c0 := {| scrollY := or_num pageYOffset scrollTop;
                windowHeight := innerHeight; documentHeight := scrollHeight;
                planets := ps; mouseX := ofZ 0; mouseY := ofZ 0;
                targetMouseX := ofZ 0; targetMouseY := ofZ 0;
                progressBar := createProgressBar bar |}).
  assert (Hbar : forall c1, is_Some (progressBar c1) ->
            exists w, progressBar (update c1) = Some (Some w)).
  { intros c1 [w Hw]. unfold update, updateProgress, updatePlanets.
    cbn. rewrite Hw. by eexists. }
  assert (Hkeep : forall c1, is_Some (progressBar c1) ->
            is_Some (progressBar (update c1))).
  { intros c1 H1. destruct (Hbar c1 H1) as [w ->]. by eexists. }
  assert (Hpl : forall c1,
            length (planets (update c1)) = length (planets c1)
            /\ Forall (fun p => is_Some (transform p)) (planets (update c1))).
  { intros c1. unfold update, updateProgress, updatePlanets.
    destruct (progressBar _); cbn [planets set_planets set_progressBar set_mouse];
      (split; [by rewrite length_imap|]);
      apply Forall_forall; intros p Hin;
      apply elem_of_lookup_imap in Hin as (i & q & -> & _); by eexists. }
  assert (H0 : is_Some (progressBar c0)) by (cbn; by destruct bar).
  split; [|split; [apply createDynamicStars_appends|]].
  - unfold ParallaxController_new. fold c0.
    destruct raf; [apply Hbar, Hkeep, H0|apply Hbar, H0].
  - unfold ParallaxController_new. fold c0. destruct raf.
    + destruct (Hpl (update c0)) as [E1 F1]. destruct (Hpl c0) as [E0 _].
      split; [by rewrite E1, E0|done].
    + apply (Hpl c0).
Qed.

(** The theorem for a page with one section, no bar and one empty
    container in a narrow window. *)
Lemma initParallax_effects_witness :
  [0%nat] <> []
  /\ exists e,
       initParallax true true (ofZ 0) (ofZ 0) (ofZ 500) (ofZ 800) (ofZ 2400)
         (fun _ => Q2Qc 0.5) [] [0%nat] None [[]] ∅ = Some e
       /\ exists w, progressBar (controller e) = Some (Some w).
Proof.
  assert (H : [0%nat] <> []) by discriminate.
  split; [exact H|].
  destruct (proj2 (initParallax_effects true true (ofZ 0) (ofZ 0) (ofZ 500)
                     (ofZ 800) (ofZ 2400) (fun _ => Q2Qc 0.5) [] [0%nat] None
                     [[]] ∅) H) as (e & E & W & _).
  by exists e.
Defined.

(** *** The stars *)




End ParallaxRestFacts.
